(** * Ars Magica 5th sheet generator: [arm5_py_integration/__init__.py]

    A shallow embedding of the template parts built by the module: the
    alert banner helper and its ID state, the template repeater, the
    personality-trait rows, the documentation post-processing and the
    colour rules of the "custom" roll template.

    Python [str] values are modelled as [string] (byte strings; the
    inputs considered are ASCII apart from the literal multiplication
    sign of the banner, which no operation inspects).  Python [float] is
    IEEE binary64 and is modelled by Rocq's primitive floats. *)

From Stdlib Require Import ZArith List Bool Ascii String Lia Floats Uint63.
From Stdlib Require Import Permutation DecimalString DecimalNat FinFun.
Import ListNotations.
Open Scope string_scope.

(* ===================================================================== *)
(** ** Python string primitives *)
(* ===================================================================== *)

Module PyStr.

(** The characters ["\n"] and the double quote. *)
Definition nl_char : ascii := "010"%char.
Definition dq_char : ascii := "034"%char.
Definition nl : string := String nl_char "".
Definition dq : string := String dq_char "".

(** Source literals are written with an apostrophe standing for the
    double quote; [lit] restores the double quotes.  It is applied to
    literal text only, never to interpolated values. *)
Fixpoint lit (s : string) : string :=
  match s with
  | "" => ""
  | String c s' => String (if (c =? "'")%char then dq_char else c) (lit s')
  end.

Fixpoint drop (n : nat) (s : string) : string :=
  match n, s with
  | O, _ => s
  | S _, "" => ""
  | S k, String _ s' => drop k s'
  end.

Fixpoint take (n : nat) (s : string) : string :=
  match n, s with
  | O, _ => ""
  | S _, "" => ""
  | S k, String c s' => String c (take k s')
  end.

Fixpoint forallb (p : ascii -> bool) (s : string) : bool :=
  match s with
  | "" => true
  | String c s' => p c && forallb p s'
  end.

(** [c in s] for a single character. *)
Fixpoint mem (c : ascii) (s : string) : bool :=
  match s with
  | "" => false
  | String d s' => (c =? d)%char || mem c s'
  end.

(** No character of [a] occurs in [b]. *)
Definition disjoint (a b : string) : bool := forallb (fun c => negb (mem c b)) a.

(** [s.startswith(p)]. *)
Fixpoint prefixb (p s : string) : bool :=
  match p, s with
  | "", _ => true
  | String _ _, "" => false
  | String a p', String b s' => (a =? b)%char && prefixb p' s'
  end.

(** [sep.join(l)]. *)
Fixpoint join (sep : string) (l : list string) : string :=
  match l with
  | [] => ""
  | [x] => x
  | x :: xs => x ++ sep ++ join sep xs
  end.

(** A left-to-right scan for the non-overlapping occurrences of a
    non-empty [old], as [str.replace] and [str.count] perform it:
    [hit] is applied at every occurrence, [keep] at every character
    outside one; [skip] counts the characters of the current
    occurrence still to pass over. *)
Section Scan.
Context {A : Type} (old : string) (hit : A -> A) (keep : ascii -> A -> A) (stop : A).

Fixpoint scan (skip : nat) (s : string) : A :=
  match s with
  | "" => stop
  | String c s' =>
    match skip with
    | S k => scan k s'
    | O => if prefixb old s then hit (scan (length old - 1) s')
           else keep c (scan 0 s')
    end
  end.
End Scan.

(** [s.replace("", new)] puts [new] before every character and at the end. *)
Fixpoint interleave (new s : string) : string :=
  match s with
  | "" => new
  | String c s' => new ++ String c (interleave new s')
  end.

(** [s.replace(old, new)]. *)
Definition replace (old new s : string) : string :=
  match old with
  | "" => interleave new s
  | _ => scan old (append new) String "" 0 s
  end.

(** [s.count(sub)]. *)
Definition count (sub s : string) : nat :=
  match sub with
  | "" => S (length s)
  | _ => scan sub S (fun _ n => n) 0 0 s
  end.

(** [sub in s]. *)
Fixpoint contains (sub s : string) : bool :=
  prefixb sub s ||
  match s with
  | "" => false
  | String _ s' => contains sub s'
  end.

(** [s.lstrip(chars)]. *)
Fixpoint lstrip (chars s : string) : string :=
  match s with
  | "" => ""
  | String c s' => if mem c chars then lstrip chars s' else s
  end.

Definition is_lower (c : ascii) : bool :=
  let n := nat_of_ascii c in (97 <=? n)%nat && (n <=? 122)%nat.
Definition is_upper (c : ascii) : bool :=
  let n := nat_of_ascii c in (65 <=? n)%nat && (n <=? 90)%nat.
Definition to_upper (c : ascii) : ascii :=
  if is_lower c then ascii_of_nat (nat_of_ascii c - 32) else c.
Definition to_lower (c : ascii) : ascii :=
  if is_upper c then ascii_of_nat (nat_of_ascii c + 32) else c.

(** [s.title()] on ASCII text: a cased character is upper-cased when
    the previous character is not cased and lower-cased otherwise. *)
Fixpoint title_from (prev_cased : bool) (s : string) : string :=
  match s with
  | "" => ""
  | String c s' =>
    if is_lower c || is_upper c
    then String (if prev_cased then to_lower c else to_upper c) (title_from true s')
    else String c (title_from false s')
  end.
Definition title (s : string) : string := title_from false s.

(** [str(n)] for a non-negative [int]. *)
Definition str_of_nat (n : nat) : string := NilZero.string_of_uint (Nat.to_uint n).

(** The pieces of [s] between the line feeds ([s.split("\n")]). *)
Fixpoint split_lines (s : string) : list string :=
  match s with
  | "" => [""]
  | String c s' =>
    if (c =? nl_char)%char then "" :: split_lines s'
    else match split_lines s' with
         | l :: ls => String c l :: ls
         | [] => [String c ""]
         end
  end.

(** *** Notions used to state the properties *)

(** [keep] applied along a stretch no occurrence starts in. *)
Fixpoint keep_all {A : Type} (keep : ascii -> A -> A) (u : string) (x : A) : A :=
  match u with
  | "" => x
  | String c u' => keep c (keep_all keep u' x)
  end.

(** A text that is empty or starts with a character absent from [m'],
    the tail of a marker: it cannot complete an occurrence of the marker
    begun before it. *)
Definition inert (m' q : string) : bool :=
  match q with
  | "" => true
  | String c _ => negb (mem c m')
  end.

(** The last character of [a] is none of [m]. *)
Fixpoint ends_outside (m a : string) : bool :=
  match a with
  | "" => false
  | String d "" => negb (mem d m)
  | String _ a' => ends_outside m a'
  end.

(** The first character of the marker [m] occurs nowhere else in it. *)
Definition head_unique (m : string) : bool :=
  match m with
  | "" => false
  | String c0 m' => negb (mem c0 m')
  end.

(** The template starts with the first character of the marker. *)
Definition same_head (m template : string) : bool :=
  match m, template with
  | String c0 _, String t0 _ => (c0 =? t0)%char
  | _, _ => false
  end.

(** [s] is not empty and has no character in common with the marker. *)
Definition apart (m s : string) : bool := negb (s =? "") && disjoint s m.

End PyStr.

(* ===================================================================== *)
(** ** [textwrap.dedent] *)
(* ===================================================================== *)

Module Textwrap.
Import PyStr.

(** The class [[ \t]] of the two regular expressions of [dedent]. *)
Definition is_blank (c : ascii) : bool := (c =? " ")%char || (c =? "009")%char.

(** A line matched by the first regular expression: one or more blanks
    and nothing else. *)
Definition whitespace_only (l : string) : bool :=
  negb (l =? "") && forallb is_blank l.

(** The leading run of blanks of a line: the group captured by the
    second regular expression. *)
Fixpoint leading_blank (l : string) : string :=
  match l with
  | "" => ""
  | String c l' => if is_blank c then String c (leading_blank l') else ""
  end.

(** A line in which the second regular expression finds a match: it has
    a character that is neither a blank nor a line feed. *)
Definition has_content (l : string) : bool := negb (forallb is_blank l).

Fixpoint common_prefix (a b : string) : string :=
  match a, b with
  | String x a', String y b' => if (x =? y)%char then String x (common_prefix a' b') else ""
  | _, _ => ""
  end.

(** One round of the loop over [indents]. *)
Definition margin_step (margin : option string) (indent : string) : option string :=
  match margin with
  | None => Some indent
  | Some m =>
    if prefixb m indent then Some m
    else if prefixb indent m then Some indent
    else Some (common_prefix m indent)
  end.

(** [re.sub(r'(?m)^' + margin, '', text)] on one line. *)
Definition strip_margin (margin l : string) : string :=
  if prefixb margin l then drop (length margin) l else l.

Definition dedent_lines (lines : list string) : list string :=
  let lines := map (fun l => if whitespace_only l then "" else l) lines in
  let indents := map leading_blank (filter has_content lines) in
  match fold_left margin_step indents None with
  | Some (String _ _ as margin) => map (strip_margin margin) lines
  | _ => lines
  end.

Definition dedent (text : string) : string :=
  join nl (dedent_lines (split_lines text)).

(** *** Notions used to state the properties *)

(** Lines given as a literal start followed by interpolated text. *)
Definition fill (ls : list (string * string)) : list string :=
  map (fun p => fst p ++ snd p) ls.

Definition blank_out (l : string) : string := if whitespace_only l then "" else l.

Definition margin_of (lines : list string) : option string :=
  fold_left margin_step (map leading_blank (filter has_content lines)) None.

Definition strip_all (margin : option string) (ls : list (string * string))
  : list (string * string) :=
  match margin with
  | Some (String _ _ as m) => map (fun p => (strip_margin m (fst p), snd p)) ls
  | _ => ls
  end.

Definition blank_out_starts (ls : list (string * string)) : list (string * string) :=
  map (fun p => (blank_out (fst p), snd p)) ls.

(** The interpolated text follows a start that has a visible character. *)
Definition anchored (p : string * string) : Prop :=
  snd p = "" \/ has_content (fst p) = true.

End Textwrap.

(* ===================================================================== *)
(** ** Outcomes of fallible code *)
(* ===================================================================== *)

Inductive exn : Type :=
| ValueError (msg : string)
| TypeError (msg : string).

Inductive outcome (A : Type) : Type :=
| Ok (a : A)
| Raise (e : exn).
Arguments Ok {A} a.
Arguments Raise {A} e.

Definition bind {A B : Type} (x : outcome A) (f : A -> outcome B) : outcome B :=
  match x with
  | Ok a => f a
  | Raise e => Raise e
  end.

Notation "'do' x <- c ; k" := (bind c (fun x => k))
  (at level 10, x pattern, c at level 100, k at level 200).

(** [[f(x) for x in l]] for a fallible [f]: the first exception ends it. *)
Fixpoint map_outcome {A B : Type} (f : A -> outcome B) (l : list A) : outcome (list B) :=
  match l with
  | [] => Ok []
  | x :: xs => do y <- f x; do ys <- map_outcome f xs; Ok (y :: ys)
  end.

(* ===================================================================== *)
(** ** The alert banner helper *)
(* ===================================================================== *)

Module Alert.
Import PyStr Textwrap.

(** The function attributes [alert.numid] and [alert.strid]. *)
Record state : Type := mkState { numid : nat; strid : list string }.

(** [alert.numid = 0; alert.strid = []] *)
Definition init : state := mkState 0 [].

Definition level_error : exn := ValueError "Level must be among 'info', 'warning'".

(** [" " * 4 * 4] *)
Definition indent16 : string := "                ".

(** The f-string of [alert], line by line. *)
Definition alert_fstring (alert_id level title text : string) : string :=
  join nl
    [ lit "        <input type='hidden' class='alert-hidder' name='attr_alert-"
        ++ alert_id ++ lit "' value='0'/>";
      lit "        <div class='alert alert-" ++ level ++ lit "'>";
      "            <div>";
      "                <h3> " ++ PyStr.title level ++ " - " ++ title ++ "</h3>";
      "                " ++ text;
      "            </div>";
      lit "            <label class='fakebutton'>";
      lit "                <input type='checkbox' name='attr_alert-"
        ++ alert_id ++ lit "' value='1' /> ×";
      "            </label>";
      "        </div>" ].

(** The branch on [ID]: the identifier given to the banner and the
    state left behind.  [ID] is [None] or a string. *)
Definition assign_id (ID : option string) (st : state) : string * state :=
  match ID with
  | None => (str_of_nat (numid st), mkState (numid st + 1) (strid st))
  | Some i => (i, mkState (numid st) (strid st ++ [i])%list)
  end.

(** [alert(title, text, *, level, ID)]: the result and the state left
    behind. *)
Definition alert (title text level : string) (ID : option string) (st : state)
  : outcome string * state :=
  if negb ((level =? "info") || (level =? "warning")) then
    (Raise level_error, st)
  else
    let '(alert_id, st') := assign_id ID st in
    let text := replace nl (nl ++ indent16) text in
    (Ok (dedent (alert_fstring alert_id level title text)), st').

(** [list(range(alert.numid)) + alert.strid], each rendered by the f-string. *)
Definition known_ids (st : state) : list string :=
  (map str_of_nat (seq 0 (numid st)) ++ strid st)%list.

Definition entry (i : string) : string := lit "'alert-" ++ i ++ lit "': 1".

(** [" " * 4 * 3] *)
Definition indent12 : string := "            ".

Definition disable_fstring (marker lines : string) : string :=
  join nl
    [ "        setAttrs({";
      lit "            '" ++ marker ++ lit "': 1,";
      "            " ++ lines;
      "        }); " ].

(** The generator joined into [lines]. *)
Definition disable_entries (st : state) : list string := map entry (known_ids st).

(** [disable_old_alerts(marker)] reads the state and leaves it alone. *)
Definition disable_old_alerts (marker : string) (st : state) : string :=
  let lines := join ("," ++ nl ++ indent12) (disable_entries st) in
  dedent (disable_fstring marker lines).

(** A call of [alert] made by the template. *)
Record call : Type :=
  mkCall { c_title : string; c_text : string; c_level : string; c_ID : option string }.

(** A run of calls, all of them accepted: the identifier and the markup
    of every banner, and the final state. *)
Fixpoint run (calls : list call) (st : state)
  : outcome (list (string * string)) * state :=
  match calls with
  | [] => (Ok [], st)
  | c :: cs =>
    match alert (c_title c) (c_text c) (c_level c) (c_ID c) st with
    | (Ok html, st') =>
      match run cs st' with
      | (Ok banners, st'') => (Ok ((fst (assign_id (c_ID c) st), html) :: banners), st'')
      | (Raise e, st'') => (Raise e, st'')
      end
    | (Raise e, st') => (Raise e, st')
    end
  end.

(** The string IDs handed to a run of calls. *)
Definition explicit_ids (calls : list call) : list string :=
  flat_map (fun c => match c_ID c with Some i => [i] | None => [] end) calls.

Definition is_digit (c : ascii) : bool :=
  let n := nat_of_ascii c in (48 <=? n)%nat && (n <=? 57)%nat.

(** A string ID that is a number, which the docstring rules out. *)
Definition is_number (s : string) : bool := negb (s =? "") && forallb is_digit s.

(** Three calls, as a template makes them. *)
Definition sample_calls : list call :=
  [ mkCall "Update" "Read this" "info" None;
    mkCall "Rolls" "New rolls" "warning" (Some "rolls");
    mkCall "Again" "More" "warning" None ].

End Alert.

(* ===================================================================== *)
(** ** The template repeater of [helpers.py] *)
(* ===================================================================== *)

Module Helpers.
Import PyStr.

(** Modelled from the spec: [repeat_template] is defined in [helpers.py],
    which is not part of the sources at hand.  Section 4.1: "produce the
    concatenation of the template once per value, with all occurrences
    of the placeholder token(s) replaced by the corresponding value(s)
    for that iteration".  [str_list] holds the values already rendered
    by [str]; the default [rep_key] is ["%%"]. *)
Definition repeat_template (template : string) (str_list : list string)
           (rep_key : string) : string :=
  String.concat "" (map (fun s => replace rep_key s template) str_list).

(** The token of a named field, as the call sites write it: [%(num)s]. *)
Definition field_token (key : string) : string := "%(" ++ key ++ ")s".

(** One iteration over a tuple of values: too few values for
    [tuple_keys] is a formatting failure. *)
Fixpoint fill_fields (template : string) (keys values : list string) : outcome string :=
  match keys, values with
  | [], _ => Ok template
  | _ :: _, [] => Raise (TypeError "not enough values for the named fields")
  | k :: ks, v :: vs => fill_fields (replace (field_token k) v template) ks vs
  end.

(** Modelled from the spec: the same repetition over "a sequence of
    named-field tuples" ([tuple_keys] given). *)
Definition repeat_template_named (template : string) (tuples : list (list string))
           (tuple_keys : list string) : outcome string :=
  do parts <- map_outcome (fun values => fill_fields template tuple_keys values) tuples;
  Ok (String.concat "" parts).

End Helpers.

(* ===================================================================== *)
(** ** The pieces of a repetition *)
(* ===================================================================== *)

Module Pieces.
Import PyStr.

(** Notions used to state the properties of the repeater. *)

(** [keep] of the scan behind [split_on]: the character joins the part
    that is being read. *)
Definition push (c : ascii) (l : list string) : list string :=
  match l with
  | x :: r => String c x :: r
  | [] => [String c ""]
  end.

(** [s.split(sep)] for a non-empty [sep]: the parts of [s] between the
    occurrences of [sep] that [s.replace(sep, ...)] replaces. *)
Definition split_on (sep s : string) : list string :=
  scan sep (cons "") push [""] 0 s.

(** The scan of [a ++ b] for [m], as [count] performs it, finds an
    occurrence that begins in [a] and ends in [b]; [skip] is the counter
    of the scan. *)
Fixpoint crossing (m : string) (skip : nat) (a b : string) : bool :=
  match a with
  | "" => false
  | String _ a' =>
    match skip with
    | S k => crossing m k a' b
    | O =>
      if prefixb m (a ++ b)
      then (length a <? length m)%nat || crossing m (length m - 1) a' b
      else crossing m 0 a' b
    end
  end.

(** Some occurrence of [m] counted in the concatenation of the pieces
    [l] begins in one piece and ends in a later one. *)
Fixpoint seams (m : string) (l : list string) : bool :=
  match l with
  | [] => false
  | p :: r => crossing m 0 p (String.concat "" r) || seams m r
  end.

(** A copy of the template, piece by piece: its static parts with the
    value [v] at every placeholder. *)
Fixpoint weave (v : string) (parts : list string) : list string :=
  match parts with
  | [] => []
  | [p] => [p]
  | p :: r => p :: v :: weave v r
  end.

(** The repetition, piece by piece. *)
Definition woven (template key : string) (values : list string) : list string :=
  flat_map (fun v => weave v (split_on key template)) values.

End Pieces.

(* ===================================================================== *)
(** ** Personality traits *)
(* ===================================================================== *)

Module Parts.
Import PyStr Textwrap Helpers.

Section PersonalityRows.
(** [personnality_template.simple] and [personnality_template.stress]:
    the two macros built by [rolltemplate] of [helpers.py]. *)
Variables simple stress : string.

(** The f-string handed to [textwrap.dedent], line by line. *)
Definition personality_fstring : string :=
  join nl
    [ "        <tr>";
      lit "            <td><input type='text' class='heading_2' style='width:245px' name='attr_Personality_Trait$$'/></td>";
      lit "            <td><input type='text' class='number_1' style='width:70px;' name='attr_Personality_Trait$$_score'/></td>";
      lit "            <td><div class='flex-container'>";
      lit "                <button type='roll' class='button simple-roll' name='roll_personality$$_simple' value='"
        ++ simple ++ lit "'></button>";
      lit "                <button type='roll' class='button stress-roll' name='roll_personality$$_stress' value='"
        ++ stress ++ lit "'></button>";
      "            </div></td>";
      "        </tr>" ].

(** [GLOBALS["personality_trait_rows"]]: the template over [range(1, 7)]. *)
Definition personality_trait_rows : string :=
  repeat_template (dedent personality_fstring) (map str_of_nat (seq 1 6)) "$$".
End PersonalityRows.

(** *** The dedented row around the two macros *)

Definition row_start : string :=
  join nl
    [ "<tr>";
      lit "    <td><input type='text' class='heading_2' style='width:245px' name='attr_Personality_Trait$$'/></td>";
      lit "    <td><input type='text' class='number_1' style='width:70px;' name='attr_Personality_Trait$$_score'/></td>";
      lit "    <td><div class='flex-container'>";
      lit "        <button type='roll' class='button simple-roll' name='roll_personality$$_simple' value='" ].

Definition row_middle : string :=
  join nl
    [ lit "'></button>";
      lit "        <button type='roll' class='button stress-roll' name='roll_personality$$_stress' value='" ].

Definition row_end : string :=
  join nl [ lit "'></button>"; "    </div></td>"; "</tr>" ].

Definition row (simple stress : string) : string :=
  row_start ++ simple ++ row_middle ++ stress ++ row_end.

(** Two macros in the style of the roll templates of the sheet. *)
Definition sample_simple : string :=
  "&{template:generic} {{Banner=^{personality} ^{roll}}} {{Label=@{Personality_Trait$$}}} {{Result=[[ 1d10 + [[@{Personality_Trait$$_Score}]] [@{Personality_Trait$$}] ]]}}".
Definition sample_stress : string :=
  "&{template:generic} {{Banner=^{personality} ^{roll}}} {{Label=@{Personality_Trait$$}}} {{Result=[[ 1d10! + [[@{Personality_Trait$$_Score}]] [@{Personality_Trait$$}] ]]}}".

End Parts.

(* ===================================================================== *)
(** ** Documentation *)
(* ===================================================================== *)

Module Documentation.
Import PyStr.

(** A parsed document as [BeautifulSoup] holds it.  An attribute value is
    a string, or a list of strings for a multi-valued attribute such as
    a [class] read from the markup. *)
Inductive attr_value : Type :=
| AttrStr (s : string)
| AttrList (l : list string).

Definition attrs : Type := list (string * attr_value).

#[warnings="-register-all"]
Inductive node : Type :=
| Text (s : string)
| Tag (name : string) (a : attrs) (children : list node).

(** [tag.get(key)] *)
Fixpoint get (a : attrs) (key : string) : option attr_value :=
  match a with
  | [] => None
  | (k, v) :: a' => if k =? key then Some v else get a' key
  end.

(** [tag.attrs[key] = v]: a present key keeps its place. *)
Fixpoint set (a : attrs) (key : string) (v : attr_value) : attrs :=
  match a with
  | [] => [(key, v)]
  | (k, w) :: a' => if k =? key then (k, v) :: a' else (k, w) :: set a' key v
  end.

(** [tag.attrs["class"] = tag.get("class", "") + " heading_label"] *)
Definition add_heading_label (a : attrs) : outcome attrs :=
  match get a "class" with
  | None => Ok (set a "class" (AttrStr ("" ++ " heading_label")))
  | Some (AttrStr s) => Ok (set a "class" (AttrStr (s ++ " heading_label")))
  | Some (AttrList _) => Raise (TypeError "can only concatenate list (not 'str') to list")
  end.

(** The inner loop over [html.find_all(h)]: every tag named [h], at any
    depth, is updated. *)
Fixpoint mark (h : string) (n : node) : outcome node :=
  match n with
  | Text s => Ok (Text s)
  | Tag name a children =>
    do a' <- (if name =? h then add_heading_label a else Ok a);
    do children' <- map_outcome (mark h) children;
    Ok (Tag name a' children')
  end.

(** [f"h{i}" for i in range(1, 10)] *)
Definition heading_names : list string :=
  map (fun i => "h" ++ str_of_nat i) (seq 1 9).

Definition mark_headings (html : list node) : outcome (list node) :=
  fold_left (fun acc h => do t <- acc; map_outcome (mark h) t) heading_names (Ok html).

Section External.
(** The two libraries around the loop: [soup(markdown.markdown(text),
    "html.parser")] and [html.prettify()]. *)
Variable parse_markdown : string -> list node.
Variable prettify : list node -> string.

(** [GLOBALS["documentation"]] for the text of [documentation.md]. *)
Definition documentation (text : string) : outcome string :=
  do html <- mark_headings (parse_markdown text);
  Ok (prettify html).
End External.

(** *** A parser for the one heading line and a renderer of flat documents *)

Definition parse_heading_line (text : string) : list node :=
  if text =? "# Heading" then [Tag "h1" [] [Text "Heading"]] else [Text text].

Definition show_attr (kv : string * attr_value) : string :=
  match kv with
  | (k, AttrStr v) => " " ++ k ++ "=" ++ dq ++ v ++ dq
  | (k, AttrList l) => " " ++ k ++ "=" ++ dq ++ join " " l ++ dq
  end.

Definition show_node (n : node) : string :=
  match n with
  | Text s => s
  | Tag name a children =>
    "<" ++ name ++ String.concat "" (map show_attr a) ++ ">"
        ++ String.concat ""
             (map (fun c => match c with Text s => s | Tag _ _ _ => "" end) children)
        ++ "</" ++ name ++ ">"
  end.

Definition show (html : list node) : string := String.concat "" (map show_node html).

End Documentation.

(* ===================================================================== *)
(** ** Colours of the "custom" roll template *)
(* ===================================================================== *)

Module Colors.
Import PyStr.

(** A row of [css_colors.csv] as [csv.DictReader] yields it. *)
Record color_def : Type := mkColor { color : string; hex : string }.

(** *** [int(s, 16)] on ASCII text *)

(** The characters [int] skips around a literal of ASCII text: the
    blank and the control characters from the tabulation to the carriage
    return. *)
Definition is_space (c : ascii) : bool :=
  let n := nat_of_ascii c in
  ((9 <=? n) && (n <=? 13) || (n =? 32))%nat.

Definition hex_value (c : ascii) : option Z :=
  let n := nat_of_ascii c in
  if ((48 <=? n) && (n <=? 57))%nat then Some (Z.of_nat (n - 48))
  else if ((97 <=? n) && (n <=? 102))%nat then Some (Z.of_nat (n - 87))
  else if ((65 <=? n) && (n <=? 70))%nat then Some (Z.of_nat (n - 55))
  else None.

Fixpoint skip_spaces (s : string) : string :=
  match s with
  | String c s' => if is_space c then skip_spaces s' else s
  | "" => ""
  end.

(** The digits of the literal, single underscores allowed between them:
    the value read and the text left over. *)
Fixpoint hex_digits (acc : Z) (prev_underscore seen : bool) (s : string)
  : option (Z * string) :=
  let finish := if prev_underscore || negb seen then None else Some (acc, s) in
  match s with
  | "" => finish
  | String c s' =>
    match hex_value c with
    | Some d => hex_digits (16 * acc + d) false true s'
    | None =>
      if (c =? "_")%char
      then (if prev_underscore then None else hex_digits acc true seen s')
      else finish
    end
  end.

Definition invalid_literal : exn := ValueError "invalid literal for int() with base 16".

Definition int16 (s : string) : outcome Z :=
  let s := skip_spaces s in
  let '(negative, s) :=
    match s with
    | String "+" s' => (false, s')
    | String "-" s' => (true, s')
    | _ => (false, s)
    end in
  let s :=
    match s with
    | String "0" (String x s') =>
      if (x =? "x")%char || (x =? "X")%char
      then match s' with String "_" s'' => s'' | _ => s' end
      else s
    | _ => s
    end in
  match s with
  | String "_" _ => Raise invalid_literal
  | _ =>
    match hex_digits 0 false false s with
    | Some (v, rest) =>
      if PyStr.forallb is_space rest then Ok (if negative then (- v)%Z else v)
      else Raise invalid_literal
    | None => Raise invalid_literal
    end
  end.

(** *** Luma *)

(** An [int] as a [float]; exact below [2^53], and the two-character
    slices read here stay within [-15 .. 255]. *)
Definition float_of_int (z : Z) : float :=
  match z with
  | Z0 => 0%float
  | Zpos _ => PrimFloat.of_uint63 (Uint63.of_Z z)
  | Zneg p => (- PrimFloat.of_uint63 (Uint63.of_Z (Zpos p)))%float
  end.

(** [int(hex[2 * i : 2 * i + 2], 16) / 255] *)
Definition channel (hex : string) (i : nat) : outcome float :=
  do n <- int16 (take 2 (drop (2 * i) hex));
  Ok (float_of_int n / 255)%float.

(** [r, g, b = tuple(... for i in range(3))] after [lstrip("#")]. *)
Definition channels (h : string) : outcome (float * float * float) :=
  let hex := lstrip "#" h in
  do r <- channel hex 0;
  do g <- channel hex 1;
  do b <- channel hex 2;
  Ok (r, g, b).

#[warnings="-inexact-float"]
Definition luma (r g b : float) : float :=
  (0.2126 * r + 0.7152 * g + 0.0722 * b)%float.

(** *** The rules of one colour *)

Definition header_selector (c : color_def) : string :=
  ".sheet-rolltemplate-custom .sheet-crt-container.sheet-crt-color-" ++ color c ++ " {".
Definition rolls_selector (c : color_def) : string :=
  ".sheet-rolltemplate-custom .sheet-crt-container.sheet-crt-rlcolor-" ++ color c
    ++ " .inlinerollresult {".
Definition buttons_selector (c : color_def) : string :=
  ".sheet-rolltemplate-custom .sheet-crt-container.sheet-crt-btcolor-" ++ color c ++ " a {".

Definition header_bg (c : color_def) : string := "    --header-bg-color: " ++ hex c ++ ";".
Definition rolls_bg (c : color_def) : string := "    --roll-bg-color: " ++ hex c ++ ";".
Definition buttons_bg (c : color_def) : string := "    --button-bg-color: " ++ hex c ++ ";".

Definition header_text_black : string := "    --header-text-color: #000;".
Definition buttons_text_black : string := "    --button-text-color: #000;".
Definition rolls_text_white : string := "    --roll-text-color: #FFF;".

(** The three lists [lines_header], [lines_rolls], [lines_buttons] of one
    round of the loop, in the order in which they are joined, each with
    its closing brace. *)
Definition rule_lines (c : color_def) : outcome (list (list string)) :=
  let lines_header := [header_selector c; header_bg c] in
  let lines_rolls := [rolls_selector c; rolls_bg c] in
  let lines_buttons := [buttons_selector c; buttons_bg c] in
  do rgb <- channels (hex c);
  let '(r, g, b) := rgb in
  let l := luma r g b in
  let '(lines_header, lines_buttons) :=
    if (0.5 <? l)%float
    then ((lines_header ++ [header_text_black])%list,
          (lines_buttons ++ [buttons_text_black])%list)
    else (lines_header, lines_buttons) in
  let lines_rolls :=
    if (l <? 0.5)%float then (lines_rolls ++ [rolls_text_white])%list else lines_rolls in
  Ok (map (fun lines => (lines ++ ["}"])%list) [lines_header; lines_rolls; lines_buttons]).

(** The blocks one colour appends to [css_rules]. *)
Definition color_rules (c : color_def) : outcome (list string) :=
  do ls <- rule_lines c;
  Ok (map (join nl) ls).

(** [css_rules] after the loop over the rows. *)
Definition css_rules (rows : list color_def) : outcome (list string) :=
  do rs <- map_outcome color_rules rows;
  Ok (List.concat rs).

(** [GLOBALS["custom_rt_color_css"]] *)
Definition custom_rt_color_css (rows : list color_def) : outcome string :=
  do rules <- css_rules rows;
  Ok (join nl rules).

(** The luma the loop computes for a row. *)
Definition luma_of (c : color_def) : outcome float :=
  do rgb <- channels (hex c);
  let '(r, g, b) := rgb in
  Ok (luma r g b).

(** *** Notions used to state the properties *)

Definition white : color_def := mkColor "white" "#FFFFFF".
Definition black : color_def := mkColor "black" "#000000".
Definition steel : color_def := mkColor "steel" "#2F8FD3".

(** A block selects the text colour [colour] when it holds a
    text-colour declaration with that value. *)
Definition selects (colour block : string) : bool :=
  contains ("-text-color: " ++ colour ++ ";") block.

(** Rows of the form [#RRGGBB]. *)
Definition is_hex_digit (c : ascii) : bool :=
  match hex_value c with Some _ => true | None => false end.

Definition well_formed_hex (h : string) : bool :=
  match h with
  | String "#" (String a (String b (String c (String d (String e (String f "")))))) =>
    List.forallb is_hex_digit [a; b; c; d; e; f]
  | _ => false
  end.

Definition all_chars : list ascii := map ascii_of_nat (seq 0 256).

Definition reads_pair (a b : ascii) : bool :=
  match hex_value a, hex_value b with
  | Some x, Some y =>
    match int16 (String a (String b "")) with
    | Ok v => (v =? 16 * x + y)%Z
    | Raise _ => false
    end
  | _, _ => true
  end.

(** A rule block: the selector, the background property, the text
    colour if any, the closing brace. *)
Definition role_block (selector background : string) (text : list string) : string :=
  join nl ([selector; background] ++ text ++ ["}"])%list.

(** The three blocks of a colour, one per role, each with the hex value
    of the colour as its background property. *)
Definition three_role_blocks (c : color_def) (blocks : list string) : Prop :=
  exists th tr tb : bool,
    blocks =
    [ role_block (".sheet-rolltemplate-custom .sheet-crt-container.sheet-crt-color-"
                    ++ color c ++ " {")
                 ("    --header-bg-color: " ++ hex c ++ ";")
                 (if th then ["    --header-text-color: #000;"] else []);
      role_block (".sheet-rolltemplate-custom .sheet-crt-container.sheet-crt-rlcolor-"
                    ++ color c ++ " .inlinerollresult {")
                 ("    --roll-bg-color: " ++ hex c ++ ";")
                 (if tr then ["    --roll-text-color: #FFF;"] else []);
      role_block (".sheet-rolltemplate-custom .sheet-crt-container.sheet-crt-btcolor-"
                    ++ color c ++ " a {")
                 ("    --button-bg-color: " ++ hex c ++ ";")
                 (if tb then ["    --button-text-color: #000;"] else []) ].

End Colors.

(* ===================================================================== *)
(** ** The experience fields *)
(* ===================================================================== *)

Module Xp.
Import PyStr.

(** [xp(name, suffix=..., adv_suffix=..., tot_suffix=...)]: the adjacent
    literals and f-strings of the source are one concatenation. *)
Definition xp (name suffix adv_suffix tot_suffix : string) : string :=
  "["
  ++ (lit "<input type='text' class='number_3' name='attr_"
      ++ name ++ suffix ++ lit "' value='0'/>")
  ++ "/"
  ++ (lit "<input type='text' class='number_3 advance' name='attr_"
      ++ name ++ adv_suffix ++ lit "' value='0' readonly/>")
  ++ "/"
  ++ (lit "<input type='text' class='number_3 total' name='attr_"
      ++ name ++ tot_suffix ++ lit "' value='0' readonly/>")
  ++ "]".

(** The call with the default suffixes. *)
Definition xp_default (name : string) : string :=
  xp name "_exp" "_advancementExp" "_totalExp".

End Xp.

(* ===================================================================== *)
(** ** The fatigue levels and the botch formula *)
(* ===================================================================== *)

Module Fatigue.
Import PyStr.

(** [range(a, b)] *)
Definition range (a b : nat) : list nat := seq a (b - a).

(** [':not(.sheet-fatigue-proxy[value="%s"])' % val] *)
Definition not_proxy (val : nat) : string :=
  lit ":not(.sheet-fatigue-proxy[value='" ++ str_of_nat val ++ lit "'])".

(** The rule of one level: the element of the outer generator. *)
Definition fatigue_rule (num lvl : nat) : string :=
  (String.concat "" (map not_proxy (range lvl (num + 1)))
     ++ (" + table tr.sheet-addfatigue-" ++ str_of_nat lvl))
    ++ (" {" ++ nl ++ "    display: none;" ++ nl ++ "}").

(** [GLOBALS["fatigue_level_css"]] for [add_fatigue_lvl_num = num]. *)
Definition fatigue_level_css_for (num : nat) : string :=
  join nl (map (fatigue_rule num) (range 1 (num + 1))).

Definition add_fatigue_lvl_num : nat := 10.

Definition fatigue_level_css : string := fatigue_level_css_for add_fatigue_lvl_num.

(** The part of [not_proxy val] after its colon. *)
Definition after_colon (val : nat) : string :=
  lit "not(.sheet-fatigue-proxy[value='" ++ str_of_nat val ++ lit "'])".

End Fatigue.

Module Botch.
Import PyStr.

Definition die : string := "[[1d10cf10cs0]]".

(** The element of the generator: one choice of the query. *)
Definition botch_option (n : nat) : string :=
  (str_of_nat n ++ " " ++ (if (n =? 1)%nat then "Die" else "Dice") ++ ",")
    ++ join " " (repeat die n).

(** The botch formula over the numbers of dice [ns]. *)
Definition botch_formula (ns : list nat) : string :=
  ("&{template:botch} {{roll= "
     ++ (("?{@{botch_num_i18n} | " ++ join "|" (map botch_option ns)) ++ "}"))
    ++ " }} {{type=Grouped}}".

(** [GLOBALS["botch_separate"]]: the formula over [range(1, 9)]. *)
Definition botch_separate : string := botch_formula (Fatigue.range 1 9).

End Botch.

(* ===================================================================== *)
(** ** The markup of the banners and of the script, line by line *)
(* ===================================================================== *)

Module Banner.
Import PyStr Textwrap Alert.

(** A line of the text inside the banner: eight blanks before it, or
    nothing at all when the line has no visible character. *)
Definition text_line (t : string) : string :=
  if has_content t then "        " ++ t else "".

(** The banner as it is returned, line by line. *)
Definition banner_top (alert_id level title : string) : list string :=
  [ lit "<input type='hidden' class='alert-hidder' name='attr_alert-"
      ++ alert_id ++ lit "' value='0'/>";
    lit "<div class='alert alert-" ++ level ++ lit "'>";
    "    <div>";
    "        <h3> " ++ PyStr.title level ++ " - " ++ title ++ "</h3>" ].

Definition banner_bottom (alert_id : string) : list string :=
  [ "    </div>";
    lit "    <label class='fakebutton'>";
    lit "        <input type='checkbox' name='attr_alert-"
      ++ alert_id ++ lit "' value='1' /> ×";
    "    </label>";
    "</div>" ].

Definition banner (alert_id level title text : string) : string :=
  join nl (List.app (banner_top alert_id level title)
                    (List.app (map text_line (split_lines text))
                              (banner_bottom alert_id))).

(** The entries, each but the last followed by a comma. *)
Fixpoint commas (es : list string) : list string :=
  match es with
  | [] => []
  | [e] => [e]
  | e :: es' => (e ++ ",") :: commas es'
  end.

(** The script as it is returned, line by line. *)
Definition script_top (marker : string) : list string :=
  [ "setAttrs({"; lit "    '" ++ marker ++ lit "': 1," ].

Definition script_entries (entries : list string) : list string :=
  match entries with
  | [] => [""]
  | _ => map (append "    ") (commas entries)
  end.

Definition script (marker : string) (entries : list string) : string :=
  join nl (List.app (script_top marker)
                    (List.app (script_entries entries) [ "}); " ])).

(** The identifiers a run of accepted calls hands out, the counter
    standing at [n]. *)
Fixpoint assigned (n : nat) (calls : list call) : list string :=
  match calls with
  | [] => []
  | c :: cs =>
    match c_ID c with
    | None => str_of_nat n :: assigned (S n) cs
    | Some i => i :: assigned n cs
    end
  end.

(** The level of a call passes the guard. *)
Definition accepted (c : call) : bool :=
  (c_level c =? "info") || (c_level c =? "warning").

End Banner.

(* ===================================================================== *)
(** ** The labelling of the headings, as one traversal *)
(* ===================================================================== *)

Module Headings.
Import PyStr Documentation.

(** The exception of [list + str]. *)
Definition type_error : exn :=
  TypeError "can only concatenate list (not 'str') to list".

(** [name] is one of the tag names [hs]. *)
Definition named (hs : list string) (name : string) : bool :=
  existsb (String.eqb name) hs.

(** The names are pairwise different. *)
Fixpoint distinct (hs : list string) : bool :=
  match hs with
  | [] => true
  | h :: t => negb (named t h) && distinct t
  end.

(** The [class] of the tag is a list, as the parser leaves the attribute
    of the markup. *)
Definition class_is_list (a : attrs) : bool :=
  match get a "class" with
  | Some (AttrList _) => true
  | _ => false
  end.

(** The attributes with [" heading_label"] added to the class. *)
Definition label (a : attrs) : attrs :=
  set a "class"
      (AttrStr ((match get a "class" with Some (AttrStr s) => s | _ => "" end)
                  ++ " heading_label")).

(** Some tag named in [hs], at any depth, has a list for class. *)
Fixpoint listed_in (hs : list string) (n : node) : bool :=
  match n with
  | Text _ => false
  | Tag name a children =>
    (named hs name && class_is_list a) || existsb (listed_in hs) children
  end.

(** The tree with every tag named in [hs] labelled. *)
Fixpoint relabel_in (hs : list string) (n : node) : node :=
  match n with
  | Text s => Text s
  | Tag name a children =>
    Tag name (if named hs name then label a else a) (map (relabel_in hs) children)
  end.

(** One pass of the outer loop: every tag named [h] of the trees is marked. *)
Definition pass (acc : outcome (list node)) (h : string) : outcome (list node) :=
  do t <- acc; map_outcome (mark h) t.

End Headings.

(* ===================================================================== *)
(** ** Colour values *)
(* ===================================================================== *)

Module Palette.
Import PyStr Colors.

(** The lower-case spelling of an ASCII text. *)
Fixpoint lower (s : string) : string :=
  match s with
  | "" => ""
  | String c s' => String (to_lower c) (lower s')
  end.

(** The gray whose three channels are spelled by the digits [a] and [b]. *)
Definition gray (a b : ascii) : string :=
  String "#" (String a (String b (String a (String b (String a (String b "")))))).

(** The row can be read: its three channels are numbers. *)
Definition readable (c : color_def) : Prop :=
  exists rgb, channels (hex c) = Ok rgb.

(** The comparisons of a gray with the threshold, checked on its level. *)
Definition gray_checks (a b : ascii) : bool :=
  match hex_value a, hex_value b with
  | Some x, Some y =>
    match luma_of (mkColor "gray" (gray a b)) with
    | Ok l =>
      Bool.eqb (0.5 <? l)%float (128 <=? 16 * x + y)%Z
      && Bool.eqb (l <? 0.5)%float (16 * x + y <=? 127)%Z
    | Raise _ => false
    end
  | _, _ => true
  end.

End Palette.

(* ===================================================================== *)
(** ** The operations and the ID state *)
(* ===================================================================== *)

Module Operations.
Import PyStr Helpers Alert Colors Botch Xp.








End Operations.

(* ===================================================================== *)
(** * Properties *)
(* ===================================================================== *)

Import PyStr.

(** ** Strings *)

Module StrFacts.

Lemma append_nil_r (s : string) : s ++ "" = s.
Proof. induction s; simpl; congruence. Qed.

Lemma append_assoc (a b c : string) : (a ++ b) ++ c = a ++ b ++ c.
Proof. induction a; simpl; congruence. Qed.

Lemma length_append (a b : string) : length (a ++ b) = length a + length b.
Proof. induction a; simpl; congruence. Qed.

Lemma append_inv_head (a b c : string) : a ++ b = a ++ c -> b = c.
Proof. induction a; simpl; intros H; [assumption|]. injection H. auto. Qed.

Lemma append_inv_tail (a b c : string) : a ++ c = b ++ c -> a = b.
Proof.
  revert b. induction a as [|x a IH]; intros [|y b] H; simpl in H.
  - reflexivity.
  - apply (f_equal length) in H. simpl in H. rewrite length_append in H. lia.
  - apply (f_equal length) in H. simpl in H. rewrite length_append in H. lia.
  - injection H as -> H. f_equal. auto.
Qed.

Lemma mem_append (c : ascii) (a b : string) : mem c (a ++ b) = mem c a || mem c b.
Proof. induction a; simpl; [reflexivity|]. rewrite IHa, orb_assoc. reflexivity. Qed.

Lemma mem_head (c : ascii) (s : string) : mem c (String c s) = true.
Proof. simpl. rewrite Ascii.eqb_refl. reflexivity. Qed.

Lemma forallb_append (p : ascii -> bool) (a b : string) :
  forallb p (a ++ b) = forallb p a && forallb p b.
Proof. induction a; simpl; [reflexivity|]. rewrite IHa, andb_assoc. reflexivity. Qed.

Lemma prefixb_append (p t : string) : prefixb p (p ++ t) = true.
Proof. induction p; simpl; [reflexivity|]. rewrite Ascii.eqb_refl. assumption. Qed.

Lemma drop_append (p t : string) : drop (length p) (p ++ t) = t.
Proof. induction p; simpl; [destruct t; reflexivity | assumption]. Qed.

Lemma prefixb_split (p s : string) :
  prefixb p s = true -> s = p ++ drop (length p) s.
Proof.
  revert s. induction p as [|a p IH]; intros s H; simpl.
  - destruct s; reflexivity.
  - destruct s as [|b s]; simpl in H; [discriminate|].
    apply andb_true_iff in H. destruct H as [E H].
    apply Ascii.eqb_eq in E. subst b. f_equal. auto.
Qed.

Lemma prefixb_append_r (m l s : string) :
  prefixb m l = true -> prefixb m (l ++ s) = true.
Proof.
  revert l. induction m as [|a m IH]; intros l H; [reflexivity|].
  destruct l as [|b l]; [discriminate|]. cbn [append prefixb] in *.
  apply andb_true_iff in H. destruct H as [-> H]. cbn [andb]. auto.
Qed.

Lemma drop_append_r (m l s : string) :
  prefixb m l = true -> drop (length m) (l ++ s) = drop (length m) l ++ s.
Proof.
  revert l. induction m as [|a m IH]; intros l H; [reflexivity|].
  destruct l as [|b l]; [discriminate|]. cbn [append prefixb length drop] in *.
  apply andb_true_iff in H. destruct H as [_ H]. auto.
Qed.

(** A character of [a] is not one of [b] when the two are disjoint. *)
Lemma disjoint_mem (a b : string) (c : ascii) :
  disjoint a b = true -> mem c a = true -> mem c b = false.
Proof.
  unfold disjoint. induction a as [|x a IH]; simpl; [discriminate|].
  intros H M. apply andb_true_iff in H. destruct H as [Hx Ha].
  apply orb_true_iff in M. destruct M as [E|M]; [|auto].
  apply Ascii.eqb_eq in E. subst x. apply negb_true_iff. exact Hx.
Qed.

Lemma disjoint_tail (a : string) (x : ascii) (b : string) :
  disjoint a (String x b) = true -> disjoint a b = true.
Proof.
  unfold disjoint. induction a as [|y a IH]; [reflexivity|].
  simpl. intros H. apply andb_true_iff in H. destruct H as [Hy Ha].
  rewrite (IH Ha), andb_true_r. apply negb_true_iff.
  apply negb_true_iff in Hy. apply orb_false_iff in Hy. tauto.
Qed.

Lemma ends_outside_split (m a : string) :
  ends_outside m a = true ->
  exists a0 d, a = a0 ++ String d "" /\ mem d m = false.
Proof.
  induction a as [|c a IH]; [discriminate|]. destruct a as [|c' a].
  - cbn [ends_outside]. intros H. exists "", c. split; [reflexivity|].
    apply negb_true_iff. exact H.
  - intros H. destruct (IH H) as (a0 & d & E & M).
    exists (String c a0), d. rewrite E. auto.
Qed.

(** *** Decimal rendering *)

Lemma to_uint_not_nil (n : nat) : Nat.to_uint n <> Decimal.Nil.
Proof.
  intros H. pose proof (Unsigned.of_to n) as E. rewrite H in E.
  simpl in E. subst n. discriminate H.
Qed.

Lemma str_of_nat_inj (n m : nat) : str_of_nat n = str_of_nat m -> n = m.
Proof.
  unfold str_of_nat. intros H.
  apply (f_equal NilZero.uint_of_string) in H.
  rewrite !NilZero.usu in H by apply to_uint_not_nil.
  injection H. apply Unsigned.to_uint_inj.
Qed.

Lemma digits_of_uint (d : Decimal.uint) :
  forallb Alert.is_digit (NilEmpty.string_of_uint d) = true.
Proof. induction d; simpl; auto. Qed.

Lemma str_of_nat_is_number (n : nat) : Alert.is_number (str_of_nat n) = true.
Proof.
  unfold Alert.is_number, str_of_nat, NilZero.string_of_uint.
  pose proof (to_uint_not_nil n) as N. pose proof (digits_of_uint (Nat.to_uint n)) as D.
  destruct (Nat.to_uint n); try congruence; simpl in *; assumption.
Qed.

End StrFacts.

(** ** Scanning for occurrences *)

Module ScanFacts.
Import StrFacts.

Section Generic.
Context {A : Type} (a0 : ascii) (old' : string).
Context (hit : A -> A) (keep : ascii -> A -> A) (stop : A).

Local Abbreviation old := (String a0 old').
Local Abbreviation sc := (scan old hit keep stop).

Lemma scan_skip (s : string) : forall k, sc k s = sc 0 (drop k s).
Proof.
  induction s as [|c s IH]; intros [|k]; try reflexivity.
  cbn [scan drop]. apply IH.
Qed.

Lemma scan_hit (t : string) : sc 0 (old ++ t) = hit (sc 0 t).
Proof.
  pose proof (prefixb_append old t) as P.
  cbn [append scan] in *. rewrite P.
  cbn [length]. rewrite Nat.sub_1_r. cbn [Nat.pred].
  rewrite scan_skip, drop_append. reflexivity.
Qed.

Lemma scan_keep (c : ascii) (s : string) :
  prefixb old (String c s) = false -> sc 0 (String c s) = keep c (sc 0 s).
Proof. intros H. cbn [scan]. rewrite H. reflexivity. Qed.

(** No occurrence starts in a stretch without the first character of [old]. *)
Lemma scan_foreign (u w : string) :
  mem a0 u = false -> sc 0 (u ++ w) = keep_all keep u (sc 0 w).
Proof.
  induction u as [|c u IH]; intros H; [reflexivity|].
  cbn [mem] in H. apply orb_false_iff in H. destruct H as [Hc Hu].
  cbn [append keep_all]. rewrite scan_keep.
  - rewrite IH by assumption. reflexivity.
  - cbn [prefixb]. rewrite Hc. reflexivity.
Qed.
End Generic.

(** *** Counting *)

Section Count.
Variables (c0 : ascii) (m' : string).
Local Abbreviation m := (String c0 m').

Lemma count_hit (t : string) : count m (m ++ t) = S (count m t).
Proof. apply (scan_hit c0 m' S (fun _ n => n) 0). Qed.

Lemma count_keep (c : ascii) (s : string) :
  prefixb m (String c s) = false -> count m (String c s) = count m s.
Proof. apply (scan_keep c0 m' S (fun _ n => n) 0). Qed.

Lemma count_foreign (u w : string) :
  mem c0 u = false -> count m (u ++ w) = count m w.
Proof.
  intros H. unfold count. rewrite (scan_foreign c0 m' S (fun _ n => n) 0 u w H).
  clear H. induction u; simpl; auto.
Qed.

(** Appending an inert text does not change how a tail of the marker
    matches. *)
Lemma prefixb_inert (q : string) :
  inert m' q = true ->
  forall t, (forall c, mem c t = true -> mem c m' = true) ->
  forall p, prefixb t (p ++ q) = prefixb t p.
Proof.
  intros Hq t. induction t as [|b t IH]; intros Ht p; [reflexivity|].
  destruct p as [|x p]; cbn [append prefixb].
  - destruct q as [|c q]; [reflexivity|]. cbn [inert] in Hq.
    destruct (Ascii.eqb_spec b c) as [->|]; [|reflexivity].
    rewrite (Ht c (mem_head c t)) in Hq. discriminate.
  - rewrite IH; [reflexivity|]. intros c Hc. apply Ht. simpl. rewrite Hc.
    apply orb_true_r.
Qed.

Lemma count_append_le (q : string) (Hq : inert m' q = true) (n : nat) :
  forall p, length p <= n -> count m (p ++ q) = count m p + count m q.
Proof.
  induction n as [|n IH]; intros p Hn.
  - destruct p; [reflexivity|simpl in Hn; lia].
  - destruct p as [|c p]; [reflexivity|]. cbn [length] in Hn.
    destruct (prefixb m (String c p)) eqn:P.
    + apply prefixb_split in P.
      set (t := drop (length m) (String c p)) in *.
      assert (Ht : length t <= n).
      { apply (f_equal length) in P. rewrite length_append in P.
        cbn [length] in P. lia. }
      rewrite P, append_assoc, !count_hit, (IH t Ht). reflexivity.
    + assert (P' : prefixb m (String c p ++ q) = false).
      { pose proof (prefixb_inert q Hq m' (fun c H => H) p) as I.
        cbn [append prefixb] in *. rewrite I. exact P. }
      cbn [append] in *. rewrite (count_keep _ _ P), (count_keep _ _ P').
      apply IH. lia.
Qed.

(** Occurrences add up across a junction that none can straddle. *)
Lemma count_append (p q : string) :
  inert m' q = true -> count m (p ++ q) = count m p + count m q.
Proof. intros Hq. apply (count_append_le q Hq (length p)). lia. Qed.

(** A text without the first character of the marker, put after a
    character foreign to the marker, adds no occurrence. *)
Lemma count_past_hole (a x r : string) :
  ends_outside m a = true -> mem c0 x = false ->
  count m (a ++ x ++ r) = count m a + count m r.
Proof.
  intros Ha Hx. destruct (ends_outside_split _ _ Ha) as (a0 & d & -> & Hd).
  cbn [mem] in Hd. apply orb_false_iff in Hd. destruct Hd as [Hd0 Hd'].
  assert (K : forall s, count m (String d s) = count m s).
  { intros s. apply count_keep. cbn [prefixb]. rewrite Ascii.eqb_sym, Hd0. reflexivity. }
  rewrite append_assoc. cbn [append].
  rewrite !(count_append a0) by (cbn [inert]; rewrite Hd'; reflexivity).
  rewrite !K, (count_foreign x r Hx). cbn [count scan]. lia.
Qed.
End Count.

(** *** Replacing *)

Section Replace.
Variables (k0 : ascii) (key' new : string).
Local Abbreviation key := (String k0 key').

Lemma replace_hit (t : string) : replace key new (key ++ t) = new ++ replace key new t.
Proof. apply (scan_hit k0 key' (append new) String ""). Qed.

Lemma replace_keep (c : ascii) (s : string) :
  prefixb key (String c s) = false ->
  replace key new (String c s) = String c (replace key new s).
Proof. apply (scan_keep k0 key' (append new) String ""). Qed.

Lemma replace_foreign (u w : string) :
  mem k0 u = false -> replace key new (u ++ w) = u ++ replace key new w.
Proof.
  intros H. unfold replace. rewrite (scan_foreign k0 key' (append new) String "" u w H).
  clear H. induction u; simpl; congruence.
Qed.

(** A text that shares no character with a non-empty [new] begins the
    replaced string only if it begins the original. *)
Lemma prefixb_replace (t : string) :
  new <> "" -> disjoint new t = true ->
  forall s, prefixb t (replace key new s) = true -> prefixb t s = true.
Proof.
  intros Hne Hd. induction t as [|a t IH]; intros s H; [reflexivity|].
  pose proof (disjoint_tail _ _ _ Hd) as Hd'.
  destruct s as [|c s]; [discriminate H|].
  destruct (prefixb key (String c s)) eqn:P.
  - apply prefixb_split in P. rewrite P, replace_hit in H.
    destruct new as [|v0 v]; [congruence|].
    cbn [append prefixb] in H. apply andb_true_iff in H. destruct H as [E _].
    apply Ascii.eqb_eq in E. subst v0.
    pose proof (disjoint_mem _ _ a Hd (mem_head a v)) as M.
    rewrite mem_head in M. discriminate.
  - rewrite (replace_keep _ _ P) in H. cbn [prefixb] in *.
    apply andb_true_iff in H. destruct H as [E H]. rewrite E. cbn [andb].
    apply (IH Hd'). exact H.
Qed.
End Replace.

End ScanFacts.

(** ** Dedenting lines with interpolated text *)

Module DedentFacts.
Import StrFacts Textwrap.

Lemma split_lines_line (l rest : string) :
  mem nl_char l = false -> split_lines (l ++ nl ++ rest) = l :: split_lines rest.
Proof.
  induction l as [|c l IH]; intros H.
  - reflexivity.
  - cbn [mem] in H. apply orb_false_iff in H. destruct H as [Hc Hl].
    cbn [append split_lines]. rewrite Ascii.eqb_sym, Hc.
    cbn [append] in IH. rewrite (IH Hl). reflexivity.
Qed.

Lemma split_lines_last (l : string) : mem nl_char l = false -> split_lines l = [l].
Proof.
  induction l as [|c l IH]; intros H; [reflexivity|].
  cbn [mem] in H. apply orb_false_iff in H. destruct H as [Hc Hl].
  cbn [split_lines]. rewrite Ascii.eqb_sym, Hc, (IH Hl). reflexivity.
Qed.

(** Splitting undoes joining when no line holds a line feed. *)
Lemma split_join (l : string) (ls : list string) :
  Forall (fun x => mem nl_char x = false) (l :: ls) ->
  split_lines (join nl (l :: ls)) = l :: ls.
Proof.
  revert l. induction ls as [|x ls IH]; intros l H.
  - apply split_lines_last. inversion H. assumption.
  - inversion H as [|? ? Hl Hls]. subst.
    change (join nl (l :: x :: ls)) with (l ++ nl ++ join nl (x :: ls)).
    rewrite (split_lines_line _ _ Hl), (IH x Hls). reflexivity.
Qed.

Lemma has_content_append (l s : string) :
  has_content l = true -> has_content (l ++ s) = true.
Proof.
  unfold has_content. rewrite forallb_append. intros H.
  apply negb_true_iff in H. rewrite H. reflexivity.
Qed.

Lemma has_content_not_blank (l : string) :
  has_content l = true -> whitespace_only l = false.
Proof.
  unfold has_content, whitespace_only. intros H. apply negb_true_iff in H.
  rewrite H. apply andb_false_r.
Qed.

Lemma blank_out_content (l : string) : has_content l = true -> blank_out l = l.
Proof. intros H. unfold blank_out. rewrite (has_content_not_blank l H). reflexivity. Qed.

Lemma leading_blank_append (l s : string) :
  has_content l = true -> leading_blank (l ++ s) = leading_blank l.
Proof.
  unfold has_content. induction l as [|c l IH]; [discriminate|].
  cbn [forallb append leading_blank]. destruct (is_blank c); [|reflexivity].
  cbn [andb]. intros H. rewrite (IH H). reflexivity.
Qed.

Lemma blank_out_fill (ls : list (string * string)) :
  Forall anchored ls ->
  map blank_out (fill ls) = fill (blank_out_starts ls) /\
  Forall anchored (blank_out_starts ls).
Proof.
  induction 1 as [|[l s] ls [E|C] _ [IH1 IH2]]; [split; constructor| |];
    cbn [fst snd] in *; unfold fill, blank_out_starts in *; cbn [map fst snd].
  - subst s. rewrite !append_nil_r, IH1. split; [reflexivity|].
    constructor; [left; reflexivity|assumption].
  - rewrite IH1, (blank_out_content _ C), (blank_out_content _ (has_content_append l s C)).
    split; [reflexivity|]. constructor; [right; assumption|assumption].
Qed.

Lemma margin_of_fill (ls : list (string * string)) :
  Forall anchored ls -> margin_of (fill ls) = margin_of (map fst ls).
Proof.
  intros H. unfold margin_of. f_equal.
  induction H as [|[l s] ls [E|C] _ IH]; [reflexivity| |];
    cbn [fst snd] in *; unfold fill in *; cbn [map fst snd filter].
  - subst s. rewrite append_nil_r. destruct (has_content l); cbn [map]; rewrite IH; reflexivity.
  - rewrite C, (has_content_append l s C). cbn [map].
    rewrite (leading_blank_append l s C), IH. reflexivity.
Qed.

Lemma strip_all_fill (margin : option string) (ls : list (string * string)) :
  (forall m, margin = Some m ->
             Forall (fun p => snd p = "" \/ prefixb m (fst p) = true) ls) ->
  match margin with
  | Some (String _ _ as m) => map (strip_margin m) (fill ls)
  | _ => fill ls
  end = fill (strip_all margin ls).
Proof.
  destruct margin as [[|a m]|]; try reflexivity.
  intros H. specialize (H _ eq_refl). cbn [strip_all].
  induction H as [|[l s] ls [E|P] _ IH]; [reflexivity| |];
    cbn [fst snd] in *; unfold fill in *; cbn [map fst snd]; rewrite IH; f_equal.
  - subst s. rewrite !append_nil_r. reflexivity.
  - unfold strip_margin. rewrite P, (prefixb_append_r _ _ s P), (drop_append_r _ _ s P).
    reflexivity.
Qed.

(** [dedent_lines] works on the starts alone when every interpolated
    text is anchored and its line begins with the margin. *)
Lemma dedent_lines_fill (ls : list (string * string)) :
  Forall anchored ls ->
  (forall m, margin_of (map fst (blank_out_starts ls)) = Some m ->
             Forall (fun p => snd p = "" \/ prefixb m (fst p) = true)
                    (blank_out_starts ls)) ->
  dedent_lines (fill ls) =
  fill (strip_all (margin_of (map fst (blank_out_starts ls))) (blank_out_starts ls)).
Proof.
  intros H1 H2. destruct (blank_out_fill ls H1) as [E A].
  unfold dedent_lines. fold blank_out. rewrite E.
  fold (margin_of (fill (blank_out_starts ls))). rewrite (margin_of_fill _ A).
  apply strip_all_fill. exact H2.
Qed.

End DedentFacts.

(** ** The template repeater *)

Module RepeatFacts.
Import StrFacts ScanFacts Helpers.

Section MarkerCount.
(** A marker [m], a placeholder [key] and a non-empty value [v] that
    share no character with the marker. *)
Variables (c0 k0 : ascii) (m' key' v : string).
Local Abbreviation m := (String c0 m').
Local Abbreviation key := (String k0 key').
Hypothesis key_m : disjoint key m = true.
Hypothesis v_m : disjoint v m = true.
Hypothesis v_ne : v <> "".

Lemma c0_not_in_key : mem c0 key = false.
Proof.
  destruct (mem c0 key) eqn:M; [|reflexivity].
  pose proof (disjoint_mem _ _ c0 key_m M) as N. rewrite mem_head in N. discriminate.
Qed.

Lemma c0_not_in_v : mem c0 v = false.
Proof.
  destruct (mem c0 v) eqn:M; [|reflexivity].
  pose proof (disjoint_mem _ _ c0 v_m M) as N. rewrite mem_head in N. discriminate.
Qed.

Lemma k0_not_in_m : mem k0 m = false.
Proof. apply (disjoint_mem key m k0 key_m). apply mem_head. Qed.

(** Replacing the placeholder by [v] neither makes nor breaks an
    occurrence of the marker. *)
Lemma count_replace_le (n : nat) :
  forall s, length s <= n -> count m (replace key v s) = count m s.
Proof.
  induction n as [|n IH]; intros s Hn.
  - destruct s; [reflexivity|simpl in Hn; lia].
  - destruct s as [|c s]; [reflexivity|]. cbn [length] in Hn.
    destruct (prefixb key (String c s)) eqn:K.
    + apply prefixb_split in K. set (t := drop (length key) (String c s)) in *.
      assert (Ht : length t <= n).
      { apply (f_equal length) in K. rewrite length_append in K.
        cbn [length] in K. lia. }
      rewrite K, replace_hit.
      rewrite (count_foreign c0 m' v _ c0_not_in_v).
      rewrite (count_foreign c0 m' key _ c0_not_in_key). apply IH, Ht.
    + rewrite (replace_keep _ _ _ _ _ K).
      destruct (prefixb m (String c s)) eqn:M.
      * apply prefixb_split in M. set (t := drop (length m) (String c s)) in *.
        assert (Ht : length t <= n).
        { apply (f_equal length) in M. rewrite length_append in M.
          cbn [length] in M. lia. }
        rewrite <- (replace_keep _ _ _ _ _ K), M.
        rewrite (replace_foreign k0 key' v m t k0_not_in_m), !count_hit.
        f_equal. apply IH, Ht.
      * assert (M' : prefixb m (String c (replace key v s)) = false).
        { destruct (prefixb m (String c (replace key v s))) eqn:E; [|reflexivity].
          rewrite <- (replace_keep _ _ _ _ _ K) in E.
          apply (prefixb_replace k0 key' v m v_ne v_m) in E. congruence. }
        rewrite (count_keep _ _ _ _ M), (count_keep _ _ _ _ M'). apply IH. lia.
Qed.

Lemma count_replace (s : string) : count m (replace key v s) = count m s.
Proof. apply (count_replace_le (length s)). lia. Qed.

(** A template that starts with the first character of the marker
    still does after the replacement. *)
Lemma replace_head (s : string) :
  replace key v (String c0 s) = String c0 (replace key v s).
Proof.
  apply replace_keep. cbn [prefixb].
  pose proof c0_not_in_key as N. cbn [mem] in N.
  apply orb_false_iff in N. destruct N as [N _].
  rewrite Ascii.eqb_sym, N. reflexivity.
Qed.
End MarkerCount.

Lemma concat_cons (x : string) (xs : list string) :
  String.concat "" (x :: xs) = x ++ String.concat "" xs.
Proof. destruct xs; simpl; [rewrite append_nil_r|]; reflexivity. Qed.

(** The marker is counted once per copy and per occurrence in the
    template. *)
Lemma marker_count (m key template : string) (values : list string) :
  head_unique m = true -> same_head m template = true ->
  apart m key = true -> List.forallb (apart m) values = true ->
  count m (repeat_template template values key) = List.length values * count m template.
Proof.
  destruct m as [|c0 m']; [discriminate|]. cbn [head_unique same_head].
  destruct template as [|t0 template]; [discriminate|].
  intros Hu Hh Hk Hv. apply Ascii.eqb_eq in Hh. subst t0.
  apply negb_true_iff in Hu.
  unfold apart in Hk. apply andb_true_iff in Hk. destruct Hk as [Kne Kd].
  destruct key as [|k0 key']; [discriminate|]. clear Kne.
  unfold repeat_template.
  induction values as [|v vs IH]; [reflexivity|].
  cbn [List.forallb] in Hv. apply andb_true_iff in Hv. destruct Hv as [Hv Hvs].
  unfold apart in Hv. apply andb_true_iff in Hv. destruct Hv as [Vne Vd].
  assert (Vne' : v <> "") by (intros ->; discriminate).
  cbn [map List.length]. rewrite concat_cons, count_append.
  - rewrite (count_replace c0 k0 m' key' v Kd Vd Vne'), (IH Hvs). reflexivity.
  - destruct vs as [|w ws]; [reflexivity|].
    cbn [List.forallb] in Hvs. apply andb_true_iff in Hvs. destruct Hvs as [Hw _].
    unfold apart in Hw. apply andb_true_iff in Hw. destruct Hw as [_ Wd].
    cbn [map]. rewrite concat_cons, (replace_head c0 k0 m' key' w Kd).
    cbn [append inert]. rewrite Hu. reflexivity.
Qed.

(** C7.  Repeating a template over an empty sequence gives the empty
    string, for a single placeholder and for named fields alike. *)
Theorem repeat_template_empty (template rep_key : string) (tuple_keys : list string) :
  repeat_template template [] rep_key = "" /\
  repeat_template_named template [] tuple_keys = Ok "".
Proof. split; reflexivity. Qed.

End RepeatFacts.

(** ** The pieces of a repetition *)

Module PieceFacts.
Import PyStr Pieces StrFacts ScanFacts Helpers RepeatFacts.

Section Split.
Variables (k0 : ascii) (key' : string).
Local Abbreviation key := (String k0 key').

Lemma split_on_hit (t : string) : split_on key (key ++ t) = "" :: split_on key t.
Proof. apply (scan_hit k0 key' (cons "") push [""]). Qed.

Lemma split_on_keep (c : ascii) (s : string) :
  prefixb key (String c s) = false ->
  split_on key (String c s) = push c (split_on key s).
Proof. apply (scan_keep k0 key' (cons "") push [""]). Qed.

Lemma split_on_shape_le (n : nat) :
  forall s, length s <= n ->
    List.length (split_on key s) = S (count key s) /\
    (forall v, replace key v s = join v (split_on key s)).
Proof.
  induction n as [|n IH]; intros s Hn.
  - destruct s; [split; reflexivity|simpl in Hn; lia].
  - destruct s as [|c s]; [split; reflexivity|]. cbn [length] in Hn.
    destruct (prefixb key (String c s)) eqn:K.
    + apply prefixb_split in K. set (t := drop (length key) (String c s)) in *.
      assert (Ht : length t <= n).
      { apply (f_equal length) in K. rewrite length_append in K.
        cbn [length] in K. lia. }
      destruct (IH t Ht) as [L R]. rewrite K, split_on_hit, count_hit.
      split; [cbn [List.length]; rewrite L; reflexivity|].
      intros v. rewrite replace_hit, R.
      destruct (split_on key t) as [|x r]; [discriminate L|reflexivity].
    + destruct (IH s ltac:(lia)) as [L R].
      rewrite (split_on_keep _ _ K), (count_keep _ _ _ _ K).
      destruct (split_on key s) as [|x r] eqn:E; [discriminate L|].
      split; [exact L|].
      intros v. rewrite (replace_keep _ _ _ _ _ K), R.
      destruct r; reflexivity.
Qed.

(** A template has one static part more than it has placeholders. *)
Lemma split_on_length (s : string) :
  List.length (split_on key s) = S (count key s).
Proof. apply (split_on_shape_le (length s)). lia. Qed.

(** Replacing the placeholder joins the static parts by the value. *)
Lemma replace_join (v s : string) : replace key v s = join v (split_on key s).
Proof. apply (split_on_shape_le (length s)). lia. Qed.
End Split.

Lemma concat_weave (v : string) (parts : list string) :
  String.concat "" (weave v parts) = join v parts.
Proof.
  induction parts as [|p [|q r] IH]; try reflexivity.
  change (weave v (p :: q :: r)) with (p :: v :: weave v (q :: r)).
  rewrite !concat_cons, IH. reflexivity.
Qed.

Lemma concat_app (l1 l2 : list string) :
  String.concat "" (l1 ++ l2) = String.concat "" l1 ++ String.concat "" l2.
Proof.
  induction l1 as [|x l1 IH]; [reflexivity|].
  cbn [app]. rewrite !concat_cons, IH, append_assoc. reflexivity.
Qed.

(** The repetition is the concatenation of its pieces. *)
Lemma repeat_template_woven (template key : string) (values : list string) :
  key <> "" ->
  repeat_template template values key = String.concat "" (woven template key values).
Proof.
  intros Hk. destruct key as [|k0 key']; [congruence|].
  unfold repeat_template, woven.
  induction values as [|v vs IH]; [reflexivity|].
  cbn [map flat_map]. rewrite concat_cons, concat_app, concat_weave, IH.
  rewrite replace_join. reflexivity.
Qed.

Lemma prefixb_within (m a b : string) :
  prefixb m (a ++ b) = true -> length m <= length a -> prefixb m a = true.
Proof.
  revert a. induction m as [|x m IH]; intros a H L; [reflexivity|].
  destruct a as [|y a]; [simpl in L; lia|].
  cbn [append prefixb length] in *. apply andb_true_iff in H. destruct H as [-> H].
  apply IH; [exact H|lia].
Qed.

Section Additive.
Variables (c0 : ascii) (m' : string).
Local Abbreviation m := (String c0 m').
Local Abbreviation scan_count := (scan m S (fun (_ : ascii) (n : nat) => n) 0).

Lemma scan_app (b : string) :
  forall a k, k <= length a -> crossing m k a b = false ->
    scan_count k (a ++ b) = scan_count k a + scan_count 0 b.
Proof.
  induction a as [|c a IH]; intros k Hk Hc.
  - cbn [length] in Hk. replace k with 0 by lia. reflexivity.
  - destruct k as [|k].
    + cbn [crossing] in Hc. change (String c a ++ b) with (String c (a ++ b)) in *.
      destruct (prefixb m (String c (a ++ b))) eqn:P.
      * apply orb_false_iff in Hc. destruct Hc as [L Hc]. apply Nat.ltb_ge in L.
        pose proof (prefixb_within m (String c a) b P L) as Pa.
        cbn [scan]. rewrite P, Pa. cbn [plus]. f_equal.
        apply IH; [cbn [length] in L |- *; lia|exact Hc].
      * assert (Pa : prefixb m (String c a) = false).
        { destruct (prefixb m (String c a)) eqn:E; [|reflexivity].
          pose proof (prefixb_append_r _ _ b E) as Q. cbn [append] in Q. congruence. }
        cbn [scan]. rewrite P, Pa. apply IH; [lia|exact Hc].
    + cbn [append scan]. apply IH; [cbn [length] in Hk; lia|exact Hc].
Qed.

(** Occurrences add up over two texts when none of those counted runs
    from the first into the second. *)
Lemma count_app (a b : string) :
  crossing m 0 a b = false -> count m (a ++ b) = count m a + count m b.
Proof. intros H. apply (scan_app b a 0); [lia|exact H]. Qed.

(** And over the pieces of a text when none crosses a seam. *)
Lemma count_pieces (l : list string) :
  seams m l = false ->
  count m (String.concat "" l) = list_sum (map (count m) l).
Proof.
  induction l as [|p r IH]; [reflexivity|].
  cbn [seams]. intros H. apply orb_false_iff in H. destruct H as [Hc Hs].
  rewrite concat_cons, (count_app _ _ Hc), (IH Hs). reflexivity.
Qed.
End Additive.

Lemma sum_weave (f : string -> nat) (v : string) (parts : list string) :
  list_sum (map f (weave v parts)) =
  list_sum (map f parts) + (List.length parts - 1) * f v.
Proof.
  induction parts as [|p [|q r] IH]; [reflexivity|simpl; lia|].
  change (weave v (p :: q :: r)) with (p :: v :: weave v (q :: r)).
  change (list_sum (map f (p :: v :: weave v (q :: r))))
    with (f p + (f v + list_sum (map f (weave v (q :: r))))).
  rewrite IH.
  change (list_sum (map f (p :: q :: r))) with (f p + list_sum (map f (q :: r))).
  cbn [List.length]. nia.
Qed.

Lemma sum_woven (f : string -> nat) (parts : list string) (values : list string) :
  list_sum (map f (flat_map (fun v => weave v parts) values)) =
  List.length values * list_sum (map f parts)
  + (List.length parts - 1) * list_sum (map f values).
Proof.
  induction values as [|v vs IH]; [simpl; lia|].
  cbn [flat_map]. rewrite map_app, list_sum_app, sum_weave, IH.
  change (list_sum (map f (v :: vs))) with (f v + list_sum (map f vs)).
  cbn [List.length]. nia.
Qed.

(** The occurrences of a text in a repetition, when none crosses a seam:
    those of the static parts, once per value, and those of the values,
    once per placeholder. *)
Lemma count_repeat (m key template : string) (values : list string) :
  m <> "" -> key <> "" ->
  seams m (woven template key values) = false ->
  count m (repeat_template template values key) =
  List.length values * list_sum (map (count m) (split_on key template))
  + count key template * list_sum (map (count m) values).
Proof.
  intros Hm Hk Hs. destruct m as [|c0 m']; [congruence|].
  rewrite (repeat_template_woven _ _ _ Hk), (count_pieces _ _ _ Hs).
  unfold woven. rewrite sum_woven.
  destruct key as [|k0 key']; [congruence|].
  rewrite split_on_length. cbn [Nat.sub]. rewrite Nat.sub_0_r. reflexivity.
Qed.

End PieceFacts.

(** ** The personality-trait rows *)

Module PartsFacts.
Import StrFacts ScanFacts RepeatFacts DedentFacts Textwrap Helpers Parts.
Import Pieces PieceFacts.

Lemma join_two_holes (a b c d p x q p' y q' g h : string) :
  join nl [a; b; c; d; p ++ x ++ q; p' ++ y ++ q'; g; h] =
  join nl [a; b; c; d; p] ++ x ++ join nl [q; p'] ++ y ++ join nl [q'; g; h].
Proof. cbn [join]. rewrite !append_assoc. reflexivity. Qed.

(** The template handed to the repeater, for macros that hold no line
    feed: the margin of eight blanks is gone from every line. *)
Lemma personality_template_dedented (simple stress : string) :
  mem nl_char simple = false -> mem nl_char stress = false ->
  dedent (personality_fstring simple stress) = row simple stress.
Proof.
  intros Hs Ht. unfold dedent, personality_fstring.
  rewrite split_join.
  2:{ repeat constructor; try reflexivity;
      rewrite !mem_append, ?Hs, ?Ht; reflexivity. }
  match goal with
  | |- join nl (dedent_lines [?l1; ?l2; ?l3; ?l4; ?p5 ++ ?s5; ?p6 ++ ?s6; ?l7; ?l8]) = _ =>
    change [l1; l2; l3; l4; p5 ++ s5; p6 ++ s6; l7; l8]
      with (fill [(l1, ""); (l2, ""); (l3, ""); (l4, ""); (p5, s5); (p6, s6);
                  (l7, ""); (l8, "")])
  end.
  rewrite dedent_lines_fill.
  - unfold row, row_start, row_middle, row_end.
    rewrite <- join_two_holes. reflexivity.
  - repeat constructor; try (left; reflexivity); right; vm_compute; reflexivity.
  - intros m Hm. vm_compute in Hm. injection Hm as <-.
    repeat constructor; try (left; reflexivity); right; vm_compute; reflexivity.
Qed.

Lemma row_has_one_tr (simple stress : string) :
  mem "<" simple = false -> mem "<" stress = false ->
  count "<tr>" (row simple stress) = 1.
Proof.
  intros Hs Ht. unfold row.
  rewrite (count_past_hole "<" "tr>" row_start simple _ eq_refl Hs).
  rewrite (count_past_hole "<" "tr>" row_middle stress _ eq_refl Ht).
  reflexivity.
Qed.

(** The rows built for any two macros without ["<"] and line feed hold
    six [<tr>]. *)
Lemma six_rows (simple stress : string) :
  mem "<" simple = false -> mem "<" stress = false ->
  mem nl_char simple = false -> mem nl_char stress = false ->
  count "<tr>" (personality_trait_rows simple stress) = 6.
Proof.
  intros Hs Ht Ns Nt. unfold personality_trait_rows.
  rewrite (personality_template_dedented simple stress Ns Nt).
  rewrite marker_count; try reflexivity.
  rewrite (row_has_one_tr simple stress Hs Ht). reflexivity.
Qed.

Lemma count_absent (m v : string) : m <> "" -> contains m v = false -> count m v = 0.
Proof.
  intros Hm. destruct m as [|c0 m']; [congruence|].
  induction v as [|c v IH]; [reflexivity|].
  cbn [contains]. intros H. apply orb_false_iff in H. destruct H as [P H].
  rewrite (count_keep _ _ _ _ P). exact (IH H).
Qed.

Lemma absent_sum (m : string) (values : list string) :
  m <> "" -> List.forallb (fun v => negb (contains m v)) values = true ->
  list_sum (map (count m) values) = 0.
Proof.
  intros Hm. induction values as [|v vs IH]; [reflexivity|].
  cbn [List.forallb]. intros H. apply andb_true_iff in H. destruct H as [Hv Hvs].
  apply negb_true_iff in Hv.
  change (list_sum (map (count m) (v :: vs)))
    with (count m v + list_sum (map (count m) vs)).
  rewrite (count_absent m v Hm Hv), (IH Hvs). reflexivity.
Qed.

(** C2 (amended).  When no occurrence of a text [m] in the repetition of
    a template runs across a seam (from a static part into a value, from
    a value into a static part, or from one copy into the next), the
    repetition holds [m] as often as the static parts of the template do,
    once per value, plus as often as the values do, once per placeholder.
    So for a template with exactly one placeholder, static parts that
    hold [m] once and values that do not contain [m], it holds [m] as
    many times as the table is long.  The personality-trait rows,
    repeated over [range(1, 7)], hold exactly six [<tr>], for any two
    roll macros that hold neither ["<"] nor a line feed. *)
Theorem marker_once_per_entry :
  (forall (m key template : string) (values : list string),
      m <> "" -> key <> "" ->
      seams m (woven template key values) = false ->
      count m (repeat_template template values key) =
      List.length values * list_sum (map (count m) (split_on key template))
      + count key template * list_sum (map (count m) values)) /\
  (forall (m key template : string) (values : list string),
      m <> "" -> key <> "" ->
      count key template = 1 ->
      list_sum (map (count m) (split_on key template)) = 1 ->
      List.forallb (fun v => negb (contains m v)) values = true ->
      seams m (woven template key values) = false ->
      count m (repeat_template template values key) = List.length values) /\
  (forall simple stress : string,
      mem "<" simple = false -> mem "<" stress = false ->
      mem nl_char simple = false -> mem nl_char stress = false ->
      count "<tr>" (personality_trait_rows simple stress) = 6).
Proof.
  split; [exact count_repeat|split; [|exact six_rows]].
  intros m key template values Hm Hk K S V N.
  rewrite (count_repeat m key template values Hm Hk N), K, S, (absent_sum m values Hm V).
  lia.
Qed.

Lemma marker_once_per_entry_witness :
  count "<li>" (repeat_template "<li>%%</li>"
                                ["Creo"; "Intellego"; "Muto"; "Perdo"; "Rego"] "%%") =
    5 * list_sum (map (count "<li>") (split_on "%%" "<li>%%</li>"))
    + count "%%" "<li>%%</li>"
      * list_sum (map (count "<li>") ["Creo"; "Intellego"; "Muto"; "Perdo"; "Rego"]) /\
  count "<tr>" (repeat_template "<tr>%%</tr>" ["Creo"; "strength"] "%%") = 2 /\
  count "<tr>" (personality_trait_rows sample_simple sample_stress) = 6.
Proof.
  destruct marker_once_per_entry as (G & O & P).
  split; [|split].
  - apply (G "<li>" "%%" "<li>%%</li>" ["Creo"; "Intellego"; "Muto"; "Perdo"; "Rego"]);
      [discriminate|discriminate|vm_compute; reflexivity].
  - apply (O "<tr>" "%%" "<tr>%%</tr>" ["Creo"; "strength"]);
      [discriminate|discriminate|vm_compute; reflexivity..].
  - apply (P sample_simple sample_stress); vm_compute; reflexivity.
Defined.

(** C2 as stated fails when a value repeats the static text: the
    template ["a%%"] has one placeholder and the static text ["a"]; over
    the one-entry table [["a"]] it gives ["aa"], where ["a"] occurs
    twice. *)
Lemma value_repeats_static_text :
  count "%%" "a%%" = 1 /\
  replace "%%" "" "a%%" = "a" /\
  repeat_template "a%%" ["a"] "%%" = "aa" /\
  count "a" (repeat_template "a%%" ["a"] "%%") = 2 /\
  List.length ["a"] = 1.
Proof. repeat split. Qed.

(** An occurrence across a seam is counted as well: the template
    ["aaa%%"] holds ["aa"] once in its static part and the value ["a"]
    does not contain it, yet ["aaaa"] holds it twice. *)
Lemma occurrence_across_a_seam :
  list_sum (map (count "aa") (split_on "%%" "aaa%%")) = 1 /\
  contains "aa" "a" = false /\
  seams "aa" (woven "aaa%%" "%%" ["a"]) = true /\
  count "aa" (repeat_template "aaa%%" ["a"] "%%") = 2.
Proof. repeat split. Qed.

End PartsFacts.

(** ** The banner helper *)

Module AlertFacts.
Import Alert StrFacts.

Lemma level_guard_accepts (level : string) :
  negb ((level =? "info") || (level =? "warning")) = false <->
  level = "info" \/ level = "warning".
Proof.
  rewrite negb_false_iff, orb_true_iff, !String.eqb_eq. reflexivity.
Qed.

(** C3.  A call of [alert] whose level is neither "info" nor "warning"
    raises the [ValueError] of the guard, produces no markup, and leaves
    both the numeric counter and the list of string IDs as they were. *)
Theorem alert_rejects_unknown_level
        (title text level : string) (ID : option string) (st : state) :
  level <> "info" -> level <> "warning" ->
  alert title text level ID st = (Raise level_error, st) /\
  numid (snd (alert title text level ID st)) = numid st /\
  strid (snd (alert title text level ID st)) = strid st.
Proof.
  intros Hinfo Hwarn.
  assert (E : alert title text level ID st = (Raise level_error, st)).
  { unfold alert.
    destruct (negb ((level =? "info") || (level =? "warning"))) eqn:G; [reflexivity|].
    apply level_guard_accepts in G. tauto. }
  rewrite E. auto.
Qed.

Lemma alert_rejects_unknown_level_witness :
  alert "Update" "Read this" "error" None init = (Raise level_error, init) /\
  numid (snd (alert "Update" "Read this" "error" None init)) = numid init /\
  strid (snd (alert "Update" "Read this" "error" None init)) = strid init.
Proof.
  apply (alert_rejects_unknown_level "Update" "Read this" "error" None init);
    discriminate.
Defined.

Lemma entry_inj (i j : string) : entry i = entry j -> i = j.
Proof.
  unfold entry. intros H. apply append_inv_head in H.
  apply append_inv_tail in H. exact H.
Qed.

(** An accepted call takes the branch on [ID] and renders the banner
    with the identifier of that branch. *)
Lemma alert_accepted (title text level : string) (ID : option string)
      (st st' : state) (html : string) :
  alert title text level ID st = (Ok html, st') ->
  st' = snd (assign_id ID st) /\
  html = Textwrap.dedent
           (alert_fstring (fst (assign_id ID st)) level title
                          (replace nl (nl ++ indent16) text)).
Proof.
  unfold alert. destruct (negb _); [discriminate|].
  destruct (assign_id ID st) as [i s]. intros [= <- <-]. auto.
Qed.



(** The banners of a run started with the counter at [numid st0]: the
    numeric identifiers handed out, the string IDs recorded. *)
Lemma run_ids (calls : list call) :
  forall st0 banners st,
    run calls st0 = (Ok banners, st) ->
    exists k,
      numid st = numid st0 + k /\
      strid st = (strid st0 ++ explicit_ids calls)%list /\
      Permutation (map fst banners)
                  (map str_of_nat (seq (numid st0) k) ++ explicit_ids calls)%list.
Proof.
  induction calls as [|c cs IH]; intros st0 banners st H; simpl in H.
  - injection H as <- <-. exists 0. rewrite Nat.add_0_r, app_nil_r. auto.
  - destruct (alert (c_title c) (c_text c) (c_level c) (c_ID c) st0)
      as [[html|e] st1] eqn:A; [|discriminate].
    destruct (run cs st1) as [[bs|e] st2] eqn:R; [|discriminate].
    injection H as <- <-.
    apply alert_accepted in A. destruct A as [-> _].
    destruct (IH _ _ _ R) as (k & Hn & Hs & Hp). clear IH R.
    unfold explicit_ids. cbn [flat_map]. fold (explicit_ids cs).
    destruct (c_ID c) as [i|]; cbn [assign_id fst snd numid strid map] in *.
    + exists k. repeat split; [assumption | rewrite Hs, <- app_assoc; reflexivity |].
      cbn [app]. rewrite Hp. apply Permutation_middle.
    + exists (S k). repeat split; [lia | assumption |].
      cbn [seq map app]. constructor.
      replace (S (numid st0)) with (numid st0 + 1) by lia. exact Hp.
Qed.

Lemma known_ids_distinct (n : nat) (ids : list string) :
  NoDup ids -> Forall (fun i => is_number i = false) ids ->
  NoDup (map str_of_nat (seq 0 n) ++ ids).
Proof.
  intros Hd Hn. apply NoDup_app; [| assumption |].
  - apply Injective_map_NoDup; [|apply seq_NoDup].
    intros a b. apply str_of_nat_inj.
  - intros x Hx Hi. apply in_map_iff in Hx. destruct Hx as (m & <- & _).
    rewrite Forall_forall in Hn. specialize (Hn _ Hi).
    rewrite str_of_nat_is_number in Hn. discriminate.
Qed.

(** C9 (amended).  After a run of accepted calls whose string IDs are
    pairwise distinct and are not numbers, the identifiers of the banners
    are pairwise distinct, and the entries of [disable_old_alerts] are
    those of the banners generated, each once. *)
Theorem banner_ids_distinct (calls : list call) (banners : list (string * string))
        (st : state) :
  run calls init = (Ok banners, st) ->
  NoDup (explicit_ids calls) ->
  Forall (fun i => is_number i = false) (explicit_ids calls) ->
  NoDup (map fst banners) /\
  NoDup (disable_entries st) /\
  Permutation (map entry (map fst banners)) (disable_entries st).
Proof.
  intros R Hd Hn. destruct (run_ids calls _ _ _ R) as (k & Hk & Hs & Hp).
  cbn [init numid strid app Nat.add] in *.
  assert (K : known_ids st = (map str_of_nat (seq 0 k) ++ explicit_ids calls)%list).
  { unfold known_ids. rewrite Hk, Hs. reflexivity. }
  pose proof (known_ids_distinct k _ Hd Hn) as D.
  split; [|split].
  - apply (Permutation_NoDup (Permutation_sym Hp) D).
  - unfold disable_entries. rewrite K.
    apply Injective_map_NoDup; [|exact D]. intros a b. apply entry_inj.
  - unfold disable_entries. rewrite K. apply Permutation_map. exact Hp.
Qed.

Lemma banner_ids_distinct_witness :
  NoDup (map fst (match fst (run sample_calls init) with Ok b => b | Raise _ => [] end)) /\
  NoDup (disable_entries (snd (run sample_calls init))) /\
  Permutation
    (map entry (map fst (match fst (run sample_calls init) with Ok b => b | Raise _ => [] end)))
    (disable_entries (snd (run sample_calls init))).
Proof.
  apply (banner_ids_distinct sample_calls).
  - vm_compute. reflexivity.
  - vm_compute. repeat constructor. intros [].
  - vm_compute. repeat constructor.
Defined.

(** C9 as stated fails when a string ID is a number: after a call with
    [ID=None] and a call with the distinct string ID "0", both banners
    are named [alert-0] and [disable_old_alerts] lists that entry twice. *)
Lemma numeric_string_id_collides :
  let calls := [ mkCall "Update" "Read this" "info" None;
                 mkCall "Rolls" "New rolls" "info" (Some "0") ] in
  NoDup (explicit_ids calls) /\
  exists h1 h2 st,
    run calls init = (Ok [("0", h1); ("0", h2)], st) /\
    ~ NoDup (map fst [("0", h1); ("0", h2)]) /\
    disable_entries st = [entry "0"; entry "0"].
Proof.
  split.
  - vm_compute. repeat constructor. intros [].
  - do 3 eexists. split; [vm_compute; reflexivity|]. split.
    + cbn [map fst]. intros N. inversion N as [|x l Hin _]. apply Hin. left. reflexivity.
    + vm_compute. reflexivity.
Qed.

End AlertFacts.

(** ** The colour rules *)

Module ColorFacts.
Import Colors.

(** *** Comparisons with the threshold *)

Lemma SFltb_asym (x y : spec_float) : SFltb x y = true -> SFltb y x = false.
Proof.
  unfold SFltb, SFcompare.
  destruct x as [s | s | | s m e], y as [s' | s' | | s' m' e'];
    try (destruct s); try (destruct s'); try congruence;
    rewrite (Z.compare_antisym e e');
    (destruct (e ?= e')%Z eqn:E; cbn [CompOpp]; try congruence);
    change (Pos.compare_cont Eq m' m) with (Pos.compare_cont (CompOpp Eq) m' m);
    rewrite <- (Pos.compare_cont_antisym m m' Eq);
    destruct (Pos.compare_cont Eq m m'); cbn [CompOpp]; congruence.
Qed.

(** [luma > 0.5] and [luma < 0.5] exclude each other. *)
Lemma above_not_below (l : float) :
  (0.5 <? l)%float = true -> (l <? 0.5)%float = false.
Proof. rewrite !FloatAxioms.ltb_spec. apply SFltb_asym. Qed.

Lemma below_not_above (l : float) :
  (l <? 0.5)%float = true -> (0.5 <? l)%float = false.
Proof. rewrite !FloatAxioms.ltb_spec. apply SFltb_asym. Qed.

Lemma luma_of_channels (c : color_def) (l : float) :
  luma_of c = Ok l ->
  exists r g b, channels (hex c) = Ok (r, g, b) /\ l = luma r g b.
Proof.
  unfold luma_of. destruct (channels (hex c)) as [[[r g] b] | e]; simpl; [|discriminate].
  intros [= <-]. eauto.
Qed.

(** The rules of a colour as a function of the two comparisons. *)
Lemma rule_lines_cases (c : color_def) (l : float) :
  luma_of c = Ok l ->
  rule_lines c =
  Ok [ ([header_selector c; header_bg c]
          ++ (if (0.5 <? l)%float then [header_text_black] else []) ++ ["}"])%list;
       ([rolls_selector c; rolls_bg c]
          ++ (if (l <? 0.5)%float then [rolls_text_white] else []) ++ ["}"])%list;
       ([buttons_selector c; buttons_bg c]
          ++ (if (0.5 <? l)%float then [buttons_text_black] else []) ++ ["}"])%list ].
Proof.
  intros H. destruct (luma_of_channels c l H) as (r & g & b & Hc & ->).
  unfold rule_lines. rewrite Hc. cbn [bind].
  destruct (0.5 <? luma r g b)%float, (luma r g b <? 0.5)%float; reflexivity.
Qed.

(** C1 (amended).  On a row whose luma is above 0.5 the header block and
    the button block take black text and the roll block declares no text
    colour; on a row whose luma is below 0.5 the roll block takes white
    text and the header and button blocks declare none. *)
Theorem text_colour_follows_luma (c : color_def) (l : float) :
  luma_of c = Ok l ->
  ((0.5 <? l)%float = true ->
   rule_lines c =
   Ok [ [header_selector c; header_bg c; "    --header-text-color: #000;"; "}"];
        [rolls_selector c; rolls_bg c; "}"];
        [buttons_selector c; buttons_bg c; "    --button-text-color: #000;"; "}"] ]) /\
  ((l <? 0.5)%float = true ->
   rule_lines c =
   Ok [ [header_selector c; header_bg c; "}"];
        [rolls_selector c; rolls_bg c; "    --roll-text-color: #FFF;"; "}"];
        [buttons_selector c; buttons_bg c; "}"] ]).
Proof.
  intros H. rewrite (rule_lines_cases c l H). split; intros Hl.
  - rewrite Hl, (above_not_below l Hl). reflexivity.
  - rewrite Hl, (below_not_above l Hl). reflexivity.
Qed.

Lemma text_colour_follows_luma_witness :
  rule_lines white =
    Ok [ [header_selector white; header_bg white; "    --header-text-color: #000;"; "}"];
         [rolls_selector white; rolls_bg white; "}"];
         [buttons_selector white; buttons_bg white; "    --button-text-color: #000;"; "}"] ] /\
  rule_lines black =
    Ok [ [header_selector black; header_bg black; "}"];
         [rolls_selector black; rolls_bg black; "    --roll-text-color: #FFF;"; "}"];
         [buttons_selector black; buttons_bg black; "}"] ].
Proof.
  split.
  - apply (proj1 (text_colour_follows_luma white 1%float ltac:(vm_compute; reflexivity)));
      vm_compute; reflexivity.
  - apply (proj2 (text_colour_follows_luma black 0%float ltac:(vm_compute; reflexivity)));
      vm_compute; reflexivity.
Defined.

(** C1 as stated fails on white: its luma is 1, above the threshold, and
    the roll block of the colour does not select black text (it holds no
    text-colour declaration at all). *)
Lemma white_roll_block_not_black :
  luma_of white = Ok 1%float /\ (0.5 <? 1)%float = true /\
  exists header rolls buttons,
    color_rules white = Ok [header; rolls; buttons] /\
    selects "#000" header = true /\ selects "#000" buttons = true /\
    selects "#000" rolls = false /\ contains "text-color" rolls = false.
Proof.
  split; [vm_compute; reflexivity|]. split; [vm_compute; reflexivity|].
  do 3 eexists. split; [vm_compute; reflexivity|].
  repeat split; vm_compute; reflexivity.
Qed.

(** C10.  A row whose luma is exactly 0.5 gets no text colour: each of
    its three blocks is the selector, the background property and the
    closing brace. *)
Theorem no_text_colour_at_threshold (c : color_def) :
  luma_of c = Ok 0.5%float ->
  rule_lines c =
  Ok [ [header_selector c; header_bg c; "}"];
       [rolls_selector c; rolls_bg c; "}"];
       [buttons_selector c; buttons_bg c; "}"] ] /\
  color_rules c =
  Ok [ header_selector c ++ nl ++ header_bg c ++ nl ++ "}";
       rolls_selector c ++ nl ++ rolls_bg c ++ nl ++ "}";
       buttons_selector c ++ nl ++ buttons_bg c ++ nl ++ "}" ].
Proof.
  intros H. pose proof (rule_lines_cases c _ H) as E.
  change (0.5 <? 0.5)%float with false in E. cbn [app] in E.
  split; [exact E|]. unfold color_rules. rewrite E. reflexivity.
Qed.

Lemma no_text_colour_at_threshold_witness :
  rule_lines steel =
  Ok [ [header_selector steel; header_bg steel; "}"];
       [rolls_selector steel; rolls_bg steel; "}"];
       [buttons_selector steel; buttons_bg steel; "}"] ] /\
  color_rules steel =
  Ok [ header_selector steel ++ nl ++ header_bg steel ++ nl ++ "}";
       rolls_selector steel ++ nl ++ rolls_bg steel ++ nl ++ "}";
       buttons_selector steel ++ nl ++ buttons_bg steel ++ nl ++ "}" ].
Proof.
  apply (no_text_colour_at_threshold steel). vm_compute. reflexivity.
Defined.

(** C6.  With no colour row the generated CSS is the empty string. *)
Theorem no_colour_no_css : custom_rt_color_css [] = Ok "".
Proof. reflexivity. Qed.

(** *** Rows of the form [#RRGGBB] *)

Lemma all_chars_complete (c : ascii) : In c all_chars.
Proof.
  unfold all_chars. rewrite <- (ascii_nat_embedding c).
  apply in_map, in_seq. pose proof (nat_ascii_bounded c). lia.
Qed.

Lemma reads_all_pairs :
  List.forallb (fun a => List.forallb (reads_pair a) all_chars) all_chars = true.
Proof. vm_compute. reflexivity. Qed.

(** Two hexadecimal digits are read as the number they spell. *)
Lemma int16_two_digits (a b : ascii) (x y : Z) :
  hex_value a = Some x -> hex_value b = Some y ->
  int16 (String a (String b "")) = Ok (16 * x + y)%Z.
Proof.
  intros Ha Hb. pose proof reads_all_pairs as H.
  rewrite forallb_forall in H. specialize (H a (all_chars_complete a)).
  rewrite forallb_forall in H. specialize (H b (all_chars_complete b)).
  unfold reads_pair in H. rewrite Ha, Hb in H.
  destruct (int16 (String a (String b ""))); [|discriminate].
  apply Z.eqb_eq in H. congruence.
Qed.

Lemma hex_digit_not_hash (a : ascii) : is_hex_digit a = true -> mem a "#" = false.
Proof.
  intros H. cbn [mem]. destruct (Ascii.eqb_spec a "#") as [->|]; [discriminate H|reflexivity].
Qed.

Lemma well_formed_channels (h : string) :
  well_formed_hex h = true -> exists r g b, channels h = Ok (r, g, b).
Proof.
  unfold well_formed_hex.
  destruct h as [|h0 [|a [|b [|c [|d [|e [|f [|]]]]]]]]; try discriminate;
    try (destruct (Ascii.eqb_spec h0 "#") as [->|]; [discriminate|];
         destruct h0 as [[] [] [] [] [] [] [] []]; discriminate).
  destruct (Ascii.eqb_spec h0 "#") as [->|N];
    [|destruct h0 as [[] [] [] [] [] [] [] []]; try discriminate; congruence].
  cbn [List.forallb]. rewrite !andb_true_iff.
  intros (Ha & Hb & Hc & Hd & He & Hf & _).
  unfold channels. cbn [lstrip]. rewrite (hex_digit_not_hash a Ha).
  change (mem "#" "#") with true. cbv iota.
  unfold channel. cbn [Nat.mul Nat.add drop take].
  unfold is_hex_digit in *.
  destruct (hex_value a) as [xa|] eqn:Ea; [|discriminate].
  destruct (hex_value b) as [xb|] eqn:Eb; [|discriminate].
  destruct (hex_value c) as [xc|] eqn:Ec; [|discriminate].
  destruct (hex_value d) as [xd|] eqn:Ed; [|discriminate].
  destruct (hex_value e) as [xe|] eqn:Ee; [|discriminate].
  destruct (hex_value f) as [xf|] eqn:Ef; [|discriminate].
  rewrite (int16_two_digits a b xa xb Ea Eb), (int16_two_digits c d xc xd Ec Ed),
    (int16_two_digits e f xe xf Ee Ef).
  cbn [bind]. eauto.
Qed.

Lemma map_outcome_Forall2 {A B : Type} (f : A -> outcome B) (l : list A) (ys : list B) :
  map_outcome f l = Ok ys -> Forall2 (fun x y => f x = Ok y) l ys.
Proof.
  revert ys. induction l as [|x l IH]; intros ys H; simpl in H.
  - injection H as <-. constructor.
  - destruct (f x) as [y|e] eqn:Fx; [|discriminate].
    destruct (map_outcome f l) as [ys'|e]; [|discriminate].
    injection H as <-. constructor; auto.
Qed.

Lemma map_outcome_total {A B : Type} (f : A -> outcome B) (l : list A) :
  Forall (fun x => exists y, f x = Ok y) l -> exists ys, map_outcome f l = Ok ys.
Proof.
  induction 1 as [|x l [y Hy] _ [ys IH]]; simpl; [eauto|].
  rewrite Hy, IH. simpl. eauto.
Qed.

Lemma rule_lines_luma (c : color_def) (ls : list (list string)) :
  rule_lines c = Ok ls -> exists l, luma_of c = Ok l.
Proof.
  unfold rule_lines, luma_of.
  destruct (channels (hex c)) as [[[r g] b]|e]; simpl; [eauto|discriminate].
Qed.

Lemma color_rules_blocks (c : color_def) (blocks : list string) :
  color_rules c = Ok blocks -> three_role_blocks c blocks.
Proof.
  unfold color_rules. destruct (rule_lines c) as [ls|e] eqn:R; [|discriminate].
  destruct (rule_lines_luma c ls R) as [l Hl].
  rewrite (rule_lines_cases c l Hl) in R. injection R as <-.
  cbn [bind]. intros [= <-].
  exists (0.5 <? l)%float, (l <? 0.5)%float, (0.5 <? l)%float.
  destruct (0.5 <? l)%float, (l <? 0.5)%float; reflexivity.
Qed.

Lemma well_formed_color_rules (c : color_def) :
  well_formed_hex (hex c) = true -> exists blocks, color_rules c = Ok blocks.
Proof.
  intros H. destruct (well_formed_channels _ H) as (r & g & b & Hc).
  unfold color_rules, rule_lines. rewrite Hc. cbn [bind].
  destruct (0.5 <? luma r g b)%float; cbn [bind]; eauto.
Qed.

(** A table of [#RRGGBB] rows does generate its rules. *)
Lemma css_rules_total (rows : list color_def) :
  Forall (fun c => well_formed_hex (hex c) = true) rows ->
  exists rules, css_rules rows = Ok rules.
Proof.
  intros H. unfold css_rules.
  destruct (map_outcome_total color_rules rows) as [rs Hrs].
  - eapply Forall_impl; [|exact H]. apply well_formed_color_rules.
  - rewrite Hrs. cbn [bind]. eauto.
Qed.

(** C5 (amended).  A table of [#RRGGBB] rows does generate its text,
    and whenever the generation succeeds the text is, row after row and
    joined by line feeds, the three blocks of the row: header, roll and
    button background, each holding the hex value of the row as a custom
    property. *)
Theorem three_blocks_per_colour (rows : list color_def) :
  (Forall (fun c => well_formed_hex (hex c) = true) rows ->
   exists css, custom_rt_color_css rows = Ok css) /\
  (forall css, custom_rt_color_css rows = Ok css ->
     exists blocks,
       Forall2 three_role_blocks rows blocks /\
       css = join nl (List.concat blocks) /\
       List.length (List.concat blocks) = 3 * List.length rows).
Proof.
  split.
  - intros H. destruct (css_rules_total rows H) as [rules E].
    unfold custom_rt_color_css. rewrite E. cbn [bind]. eauto.
  - intros css H. unfold custom_rt_color_css, css_rules in H.
    destruct (map_outcome color_rules rows) as [rs|e] eqn:M; [|discriminate].
    cbn [bind] in H. injection H as <-. apply map_outcome_Forall2 in M.
    assert (F : Forall2 three_role_blocks rows rs).
    { eapply Forall2_impl; [|exact M]. apply color_rules_blocks. }
    exists rs. split; [exact F|]. split; [reflexivity|].
    clear M. induction F as [|c bs rows rs (th & tr & tb & ->) _ IH]; [reflexivity|].
    cbn [List.concat List.length app]. rewrite IH. lia.
Qed.

Lemma three_blocks_per_colour_witness :
  exists css blocks,
    custom_rt_color_css [white; black] = Ok css /\
    Forall2 three_role_blocks [white; black] blocks /\
    css = join nl (List.concat blocks) /\
    List.length (List.concat blocks) = 6.
Proof.
  destruct (three_blocks_per_colour [white; black]) as [T S].
  destruct T as [css E]; [repeat constructor|].
  destruct (S css E) as (blocks & F & C & L).
  exists css, blocks. auto.
Defined.

(** C5 as stated fails on a table with a hex value that is not read:
    the short form [#F00] has no third channel, [int] raises, and no
    block is emitted for any colour of the table, the well-formed ones
    included. *)
Lemma short_hex_stops_the_generation :
  custom_rt_color_css [white; mkColor "red" "#F00"; black] = Raise invalid_literal /\
  (exists css, custom_rt_color_css [white; black] = Ok css).
Proof. split; [vm_compute; reflexivity|eexists; vm_compute; reflexivity]. Qed.

End ColorFacts.

(** ** The documentation *)

Module DocumentationFacts.
Import Documentation.

(** C8.  When the text of the documentation is a single heading line,
    which the Markdown conversion and the parser turn into one [h1]
    element without attributes, the element comes out of the loop with
    the class attribute [" heading_label"], and that document is the one
    rendered. *)
Theorem heading_gets_label
        (parse_markdown : string -> list node) (prettify : list node -> string)
        (text title : string) :
  parse_markdown text = [Tag "h1" [] [Text title]] ->
  mark_headings (parse_markdown text) =
    Ok [Tag "h1" [("class", AttrStr " heading_label")] [Text title]] /\
  documentation parse_markdown prettify text =
    Ok (prettify [Tag "h1" [("class", AttrStr " heading_label")] [Text title]]).
Proof.
  intros H. unfold documentation. rewrite H. split; reflexivity.
Qed.

Lemma heading_gets_label_witness :
  mark_headings (parse_heading_line "# Heading") =
    Ok [Tag "h1" [("class", AttrStr " heading_label")] [Text "Heading"]] /\
  documentation parse_heading_line show "# Heading" =
    Ok (lit "<h1 class=' heading_label'>Heading</h1>").
Proof.
  apply (heading_gets_label parse_heading_line show "# Heading" "Heading").
  reflexivity.
Defined.

End DocumentationFacts.

(** ** Counting in joined texts *)

Module CountFacts.
Import StrFacts ScanFacts.

Lemma forallb_mem (p : ascii -> bool) (c : ascii) (s : string) :
  forallb p s = true -> p c = false -> mem c s = false.
Proof.
  induction s as [|d s IH]; [reflexivity|]. cbn [forallb mem].
  intros H Hc. apply andb_true_iff in H. destruct H as [Hd Hs].
  rewrite (IH Hs Hc), orb_false_r.
  destruct (Ascii.eqb_spec c d) as [->|]; [congruence|reflexivity].
Qed.

(** A character that is not a digit is not in the rendering of a number. *)
Lemma not_in_number (c : ascii) (n : nat) :
  Alert.is_digit c = false -> mem c (str_of_nat n) = false.
Proof.
  intros Hc. pose proof (str_of_nat_is_number n) as H.
  unfold Alert.is_number in H. apply andb_true_iff in H. destruct H as [_ H].
  exact (forallb_mem _ c _ H Hc).
Qed.

Section Joined.
Variables (c0 : ascii) (m' : string).
Local Abbreviation m := (String c0 m').

(** Occurrences add up over the copies of a concatenation whose pieces
    all start outside the tail of the marker. *)
Lemma count_concat (l : list string) :
  Forall (fun x => inert m' x = true) l ->
  count m (String.concat "" l) = list_sum (map (count m) l).
Proof.
  induction 1 as [|x l Hx Hl IH]; [reflexivity|].
  rewrite RepeatFacts.concat_cons.
  change (list_sum (map (count m) (x :: l)))
    with (count m x + list_sum (map (count m) l)).
  rewrite <- IH. apply count_append. destruct Hl as [|y l Hy Hl]; [reflexivity|].
  rewrite RepeatFacts.concat_cons. destruct y; [|exact Hy].
  cbn [append]. clear -Hl. induction Hl as [|z l Hz Hl IH]; [reflexivity|].
  rewrite RepeatFacts.concat_cons. destruct z; [exact IH|exact Hz].
Qed.

(** Occurrences add up over a join whose separator starts outside the
    tail of the marker and holds no first character of it. *)
Lemma count_join (sep : string) (l : list string) :
  inert m' sep = true -> sep <> "" -> mem c0 sep = false ->
  count m (join sep l) = list_sum (map (count m) l).
Proof.
  intros Hi Hne Hm. induction l as [|x l IH]; [reflexivity|].
  destruct l as [|y l].
  - change (list_sum (map (count m) [x])) with (count m x + 0).
    cbn [join]. lia.
  - change (join sep (x :: y :: l)) with (x ++ sep ++ join sep (y :: l)).
    change (list_sum (map (count m) (x :: y :: l)))
      with (count m x + list_sum (map (count m) (y :: l))).
    rewrite count_append.
    + rewrite (count_foreign c0 m' sep _ Hm), IH. reflexivity.
    + destruct sep as [|s0 sep]; [congruence|exact Hi].
Qed.
End Joined.

End CountFacts.

(** ** The fatigue rules *)

Module FatigueFacts.
Import StrFacts ScanFacts CountFacts Fatigue.

Lemma range_length (a b : nat) : List.length (range a b) = b - a.
Proof. apply length_seq. Qed.

Lemma not_proxy_one (val : nat) : count ":not(" (not_proxy val) = 1.
Proof.
  unfold not_proxy.
  rewrite (count_past_hole ":" "not(");
    [reflexivity | reflexivity | apply not_in_number; reflexivity].
Qed.

Lemma not_proxies (vals : list nat) :
  count ":not(" (String.concat "" (map not_proxy vals)) = List.length vals.
Proof.
  rewrite count_concat.
  - induction vals as [|v vs IH]; [reflexivity|].
    change (list_sum (map (count ":not(") (map not_proxy (v :: vs))))
      with (count ":not(" (not_proxy v)
            + list_sum (map (count ":not(") (map not_proxy vs))).
    rewrite not_proxy_one, IH. reflexivity.
  - apply Forall_forall. intros x Hx. apply in_map_iff in Hx.
    destruct Hx as (v & <- & _). reflexivity.
Qed.

Lemma rule_tail_none (lvl : nat) :
  count ":not("
    ((" + table tr.sheet-addfatigue-" ++ str_of_nat lvl)
       ++ (" {" ++ nl ++ "    display: none;" ++ nl ++ "}")) = 0.
Proof.
  rewrite append_assoc.
  rewrite (count_past_hole ":" "not(");
    [reflexivity | reflexivity | apply not_in_number; reflexivity].
Qed.

(** The rule of level [lvl] negates the proxy values from [lvl] to [num]. *)
Lemma rule_negations (num lvl : nat) :
  count ":not(" (fatigue_rule num lvl) = num + 1 - lvl.
Proof.
  unfold fatigue_rule. rewrite append_assoc, count_append by reflexivity.
  rewrite not_proxies, rule_tail_none, range_length. lia.
Qed.

Lemma sum_down (a : nat) (n : nat) :
  forall s, s + n <= a + 1 ->
  2 * list_sum (map (fun lvl => a + 1 - lvl) (seq s n)) + n * (n + 2 * s) = n * (2 * a + 3).
Proof.
  induction n as [|n IH]; intros s H; [reflexivity|].
  cbn [seq map].
  change (list_sum (a + 1 - s :: map (fun lvl => a + 1 - lvl) (seq (S s) n)))
    with (a + 1 - s + list_sum (map (fun lvl => a + 1 - lvl) (seq (S s) n))).
  specialize (IH (S s) ltac:(lia)). nia.
Qed.


Lemma not_proxy_colon (val : nat) : not_proxy val = String ":" (after_colon val).
Proof. reflexivity. Qed.

Lemma after_colon_mem (c : ascii) (val : nat) :
  Alert.is_digit c = false ->
  mem c (lit "not(.sheet-fatigue-proxy[value=''])") = false ->
  mem c (after_colon val) = false.
Proof.
  intros Hd Hc. unfold after_colon. rewrite !mem_append, (not_in_number c val Hd).
  change (lit "not(.sheet-fatigue-proxy[value=''])")
    with (lit "not(.sheet-fatigue-proxy[value='" ++ lit "'])") in Hc.
  rewrite mem_append in Hc. apply orb_false_iff in Hc. destruct Hc as [-> ->].
  reflexivity.
Qed.

(** Two numbers followed by a character that is no digit: one rendering
    starts the other only if the numbers are equal. *)
Lemma digits_then_stop (s t q q' : string) (d d' : ascii) :
  forallb Alert.is_digit s = true -> forallb Alert.is_digit t = true ->
  Alert.is_digit d = false -> Alert.is_digit d' = false ->
  prefixb (s ++ String d q) (t ++ String d' q') = true -> s = t.
Proof.
  intros Hs Ht Hd Hd'. revert t Ht.
  induction s as [|a s IH]; intros [|b t] Ht H; cbn [append prefixb forallb] in *.
  - reflexivity.
  - apply andb_true_iff in H. destruct H as [E _]. apply Ascii.eqb_eq in E. subst b.
    apply andb_true_iff in Ht. destruct Ht as [Hb _]. congruence.
  - apply andb_true_iff in H. destruct H as [E _]. apply Ascii.eqb_eq in E. subst a.
    apply andb_true_iff in Hs. destruct Hs as [Ha _]. congruence.
  - apply andb_true_iff in H. destruct H as [E H]. apply Ascii.eqb_eq in E. subst b.
    apply andb_true_iff in Hs. destruct Hs as [_ Hs].
    apply andb_true_iff in Ht. destruct Ht as [_ Ht].
    f_equal. exact (IH Hs t Ht H).
Qed.

Lemma str_of_nat_digits (n : nat) : forallb Alert.is_digit (str_of_nat n) = true.
Proof.
  pose proof (str_of_nat_is_number n) as H. unfold Alert.is_number in H.
  apply andb_true_iff in H. tauto.
Qed.

Lemma not_proxy_prefix (v w : nat) :
  prefixb (not_proxy v) (not_proxy w) = true -> v = w.
Proof.
  unfold not_proxy. intros H.
  set (a := lit ":not(.sheet-fatigue-proxy[value='") in *.
  assert (P : forall x y, prefixb (a ++ x) (a ++ y) = prefixb x y).
  { intros x y. subst a. cbn [lit append prefixb].
    rewrite ?Ascii.eqb_refl. reflexivity. }
  rewrite P in H. apply str_of_nat_inj.
  apply (digits_then_stop _ _ (lit "])") (lit "])") dq_char dq_char
           (str_of_nat_digits v) (str_of_nat_digits w) eq_refl eq_refl H).
Qed.

(** One negation holds the negation of [v] once if it is that of [v],
    and not at all otherwise. *)
Lemma count_not_proxy (v w : nat) :
  count (not_proxy v) (not_proxy w) = if (v =? w)%nat then 1 else 0.
Proof.
  destruct (Nat.eqb_spec v w) as [<-|N].
  - rewrite <- (append_nil_r (not_proxy v)) at 2.
    rewrite not_proxy_colon at 1 2. rewrite count_hit. reflexivity.
  - assert (P : prefixb (not_proxy v) (not_proxy w) = false).
    { destruct (prefixb (not_proxy v) (not_proxy w)) eqn:E; [|reflexivity].
      apply not_proxy_prefix in E. contradiction. }
    rewrite (not_proxy_colon w) in *. rewrite (not_proxy_colon v) in *.
    rewrite (count_keep _ _ _ _ P).
    rewrite <- (append_nil_r (after_colon w)).
    apply count_foreign. apply after_colon_mem; reflexivity.
Qed.

Lemma sum_hits (v : nat) (n : nat) :
  forall a, list_sum (map (fun w => if (v =? w)%nat then 1 else 0) (seq a n))
            = if ((a <=? v) && (v <? a + n))%nat then 1 else 0.
Proof.
  induction n as [|n IH]; intros a.
  - cbn [seq map]. change (list_sum []) with 0.
    destruct (Nat.leb_spec a v), (Nat.ltb_spec v (a + 0));
      first [reflexivity | cbn [andb]; lia].
  - cbn [seq map].
    change (list_sum ((if (v =? a)%nat then 1 else 0)
                        :: map (fun w => if (v =? w)%nat then 1 else 0) (seq (S a) n)))
      with ((if (v =? a)%nat then 1 else 0)
            + list_sum (map (fun w => if (v =? w)%nat then 1 else 0) (seq (S a) n))).
    rewrite IH.
    destruct (Nat.eqb_spec v a), (Nat.leb_spec (S a) v), (Nat.ltb_spec v (S a + n)),
      (Nat.leb_spec a v), (Nat.ltb_spec v (a + S n)); cbn [andb Nat.add]; lia.
Qed.


Lemma list_sum_map_ext {A : Type} (f g : A -> nat) (l : list A) :
  (forall x, f x = g x) -> list_sum (map f l) = list_sum (map g l).
Proof. intros H. f_equal. apply map_ext. exact H. Qed.

Lemma list_sum_ones {A : Type} (f : A -> nat) (l : list A) :
  (forall x, f x = 1) -> list_sum (map f l) = List.length l.
Proof.
  intros H. induction l as [|x l IH]; [reflexivity|].
  change (list_sum (map f (x :: l))) with (f x + list_sum (map f l)).
  rewrite H, IH. reflexivity.
Qed.

Lemma rule_tail_split (lvl : nat) :
  (" + table tr.sheet-addfatigue-" ++ str_of_nat lvl)
    ++ (" {" ++ nl ++ "    display: none;" ++ nl ++ "}")
  = (" + table tr.sheet-addfatigue-" ++ str_of_nat lvl ++ " {" ++ nl ++ "    display")
      ++ (": none;" ++ nl ++ "}").
Proof. rewrite !append_assoc. reflexivity. Qed.

Lemma rule_tail_no_negation (v lvl : nat) :
  count (not_proxy v)
        ((" + table tr.sheet-addfatigue-" ++ str_of_nat lvl)
           ++ (" {" ++ nl ++ "    display: none;" ++ nl ++ "}")) = 0.
Proof.
  rewrite rule_tail_split, not_proxy_colon. rewrite count_foreign.
  - change (": none;" ++ nl ++ "}") with (String ":" (" none;" ++ nl ++ "}")).
    rewrite count_keep by reflexivity.
    rewrite <- (append_nil_r (" none;" ++ nl ++ "}")).
    apply count_foreign. reflexivity.
  - rewrite !mem_append, (not_in_number ":" lvl eq_refl). reflexivity.
Qed.

(** X1.  The rule of level [lvl] negates the proxy value [v] exactly when
    [lvl <= v <= num], and then once: the row of the level is hidden
    unless the selected fatigue value is at least the level. *)
Theorem rule_negates_from_own_level (num lvl v : nat) :
  count (not_proxy v) (fatigue_rule num lvl) =
  if ((lvl <=? v) && (v <=? num))%nat then 1 else 0.
Proof.
  unfold fatigue_rule. rewrite append_assoc, (not_proxy_colon v).
  rewrite count_append.
  2:{ cbn [append inert]. rewrite after_colon_mem; reflexivity. }
  rewrite <- (not_proxy_colon v), rule_tail_no_negation, Nat.add_0_r.
  rewrite (not_proxy_colon v), count_concat.
  2:{ apply Forall_forall. intros x Hx. apply in_map_iff in Hx.
      destruct Hx as (w & <- & _). rewrite not_proxy_colon. cbn [inert].
      rewrite after_colon_mem; reflexivity. }
  rewrite <- (not_proxy_colon v), map_map.
  rewrite (list_sum_map_ext _ _ _ (count_not_proxy v)).
  unfold range. rewrite sum_hits.
  destruct (Nat.leb_spec lvl v), (Nat.ltb_spec v (lvl + (num + 1 - lvl))),
    (Nat.leb_spec v num); cbn [andb]; first [reflexivity | lia].
Qed.

Lemma mem_concat (c : ascii) (l : list string) :
  Forall (fun x => mem c x = false) l -> mem c (String.concat "" l) = false.
Proof.
  induction 1 as [|x l Hx _ IH]; [reflexivity|].
  rewrite RepeatFacts.concat_cons, mem_append, Hx, IH. reflexivity.
Qed.

Lemma rule_one_block (num lvl : nat) : count "{" (fatigue_rule num lvl) = 1.
Proof.
  unfold fatigue_rule. rewrite count_append by reflexivity.
  rewrite <- (append_nil_r (_ ++ (_ ++ str_of_nat lvl))), count_foreign; [reflexivity|].
  rewrite !mem_append, (not_in_number "{" lvl eq_refl), mem_concat; [reflexivity|].
  apply Forall_forall. intros x Hx. apply in_map_iff in Hx.
  destruct Hx as (w & <- & _). unfold not_proxy.
  rewrite !mem_append, (not_in_number "{" w eq_refl). reflexivity.
Qed.

(** X2.  The sheet for [num] additional levels has one rule block per
    level, [num (num + 1) / 2] negations in all, and is empty when there
    is no additional level. *)
Theorem fatigue_css_size (num : nat) :
  count "{" (fatigue_level_css_for num) = num /\
  2 * count ":not(" (fatigue_level_css_for num) = num * (num + 1) /\
  fatigue_level_css_for 0 = "".
Proof.
  unfold fatigue_level_css_for, range. rewrite Nat.add_sub.
  split; [|split; [|reflexivity]].
  - rewrite count_join; [|reflexivity|discriminate|reflexivity].
    rewrite map_map, (list_sum_ones _ _ (rule_one_block num)). apply length_seq.
  - rewrite count_join; [|reflexivity|discriminate|reflexivity].
    rewrite map_map, (list_sum_map_ext _ _ _ (rule_negations num)).
    pose proof (sum_down num num 1 ltac:(lia)) as H.
    change (fun lvl : nat => num + 1 - lvl) with (Nat.sub (num + 1)) in H. nia.
Qed.

End FatigueFacts.

(** ** The botch formula *)

Module BotchFacts.
Import StrFacts ScanFacts CountFacts Botch FatigueFacts.

Lemma dice_joined (n : nat) : count die (join " " (repeat die n)) = n.
Proof.
  unfold die at 1. rewrite count_join; [|reflexivity|discriminate|reflexivity].
  induction n as [|n IH]; [reflexivity|].
  cbn [repeat map].
  change (list_sum (count "[[1d10cf10cs0]]" die :: map (count "[[1d10cf10cs0]]") (repeat die n)))
    with (count "[[1d10cf10cs0]]" die + list_sum (map (count "[[1d10cf10cs0]]") (repeat die n))).
  rewrite IH. reflexivity.
Qed.

Lemma option_dice (n : nat) : count die (botch_option n) = n.
Proof.
  unfold botch_option. unfold die at 1. rewrite count_foreign.
  - apply dice_joined.
  - rewrite !mem_append, (not_in_number "[" n eq_refl).
    destruct (n =? 1)%nat; reflexivity.
Qed.

(** X3.  The choice for [n] dice of the botch query rolls [n] dice, and
    the whole formula holds as many dice as its choices add up to; the
    formula of the sheet, over 1 to 8 dice, holds 36. *)
Theorem botch_dice :
  (forall n, count die (botch_option n) = n) /\
  (forall ns, count die (botch_formula ns) = list_sum ns) /\
  count die botch_separate = 36.
Proof.
  assert (F : forall ns, count die (botch_formula ns) = list_sum ns).
  { intros ns. unfold botch_formula. rewrite !append_assoc.
    change ("&{template:botch} {{roll= " ++ "?{@{botch_num_i18n} | " ++
              join "|" (map botch_option ns) ++ "}" ++ " }} {{type=Grouped}}")
      with (("&{template:botch} {{roll= " ++ "?{@{botch_num_i18n} | ") ++
              join "|" (map botch_option ns) ++ "} }} {{type=Grouped}}").
    unfold die at 1. rewrite count_foreign by reflexivity.
    rewrite count_append by reflexivity.
    rewrite count_join; [|reflexivity|discriminate|reflexivity].
    rewrite map_map, (list_sum_map_ext _ _ _ option_dice), map_id.
    change (count "[[1d10cf10cs0]]" "} }} {{type=Grouped}}") with 0. lia. }
  split; [exact option_dice|]. split; [exact F|].
  unfold botch_separate. rewrite F. reflexivity.
Qed.

End BotchFacts.

(** ** The headings of the documentation *)

Module HeadingFacts.
Import Documentation Headings.

Lemma node_induction (P : node -> Prop) :
  (forall s, P (Text s)) ->
  (forall name a children, Forall P children -> P (Tag name a children)) ->
  forall n, P n.
Proof.
  intros HT HG. fix IH 1. intros [s | name a children]; [apply HT|].
  apply HG. induction children as [|c cs IHcs]; constructor; [apply IH | exact IHcs].
Qed.

Lemma add_heading_label_cases (a : attrs) :
  add_heading_label a = if class_is_list a then Raise type_error else Ok (label a).
Proof.
  unfold add_heading_label, class_is_list, label.
  destruct (get a "class") as [[s|l]|]; reflexivity.
Qed.

Lemma map_outcome_cases {A B : Type} (f : A -> outcome B) (bad : A -> bool) (g : A -> B)
      (e : exn) (l : list A) :
  Forall (fun x => f x = if bad x then Raise e else Ok (g x)) l ->
  map_outcome f l = if existsb bad l then Raise e else Ok (map g l).
Proof.
  induction 1 as [|x l Hx _ IH]; [reflexivity|].
  cbn [map_outcome existsb map]. rewrite Hx, IH.
  destruct (bad x); [reflexivity|]. cbn [bind orb].
  destruct (existsb bad l); reflexivity.
Qed.

(** One pass of the loop. *)
Lemma mark_cases (h : string) (n : node) :
  mark h n = if listed_in [h] n then Raise type_error else Ok (relabel_in [h] n).
Proof.
  induction n as [s | name a children IH] using node_induction; [reflexivity|].
  cbn [mark listed_in relabel_in named existsb].
  rewrite (map_outcome_cases _ _ _ _ _ IH), orb_false_r.
  destruct (name =? h).
  - rewrite add_heading_label_cases. destruct (class_is_list a); [reflexivity|].
    cbn [bind andb orb]. destruct (existsb (listed_in [h]) children); reflexivity.
  - cbn [bind andb orb]. destruct (existsb (listed_in [h]) children); reflexivity.
Qed.

Lemma named_app (a b : list string) (name : string) :
  named (a ++ b) name = named a name || named b name.
Proof. apply existsb_app. Qed.

Lemma existsb_orb {A : Type} (f g : A -> bool) (l : list A) :
  existsb (fun x => f x || g x) l = existsb f l || existsb g l.
Proof.
  induction l as [|x l IH]; [reflexivity|]. cbn [existsb]. rewrite IH.
  destruct (f x), (g x), (existsb f l), (existsb g l); reflexivity.
Qed.

Lemma existsb_map {A B : Type} (f : B -> bool) (g : A -> B) (l : list A) :
  existsb f (map g l) = existsb (fun x => f (g x)) l.
Proof. induction l as [|x l IH]; [reflexivity|]. cbn. rewrite IH. reflexivity. Qed.

Lemma existsb_ext_Forall {A : Type} (f g : A -> bool) (l : list A) :
  Forall (fun x => f x = g x) l -> existsb f l = existsb g l.
Proof. induction 1 as [|x l Hx _ IH]; [reflexivity|]. cbn. rewrite Hx, IH. reflexivity. Qed.

Lemma existsb_pointwise {A : Type} (f g : A -> bool) (l : list A) :
  (forall x, f x = g x) -> existsb f l = existsb g l.
Proof. intros H. induction l as [|x l IH]; [reflexivity|]. cbn. rewrite H, IH. reflexivity. Qed.

Lemma map_ext_Forall' {A B : Type} (f g : A -> B) (l : list A) :
  Forall (fun x => f x = g x) l -> map f l = map g l.
Proof. induction 1 as [|x l Hx _ IH]; [reflexivity|]. cbn. rewrite Hx, IH. reflexivity. Qed.

Lemma listed_in_app (a b : list string) (n : node) :
  listed_in (a ++ b) n = listed_in a n || listed_in b n.
Proof.
  induction n as [s | name at_ children IH] using node_induction; [reflexivity|].
  cbn [listed_in]. rewrite named_app, (existsb_ext_Forall _ _ _ IH), existsb_orb.
  destruct (named a name), (named b name), (class_is_list at_),
    (existsb (listed_in a) children), (existsb (listed_in b) children); reflexivity.
Qed.

Lemma listed_in_nil (n : node) : listed_in [] n = false.
Proof.
  induction n as [s | name a children IH] using node_induction; [reflexivity|].
  cbn [listed_in named existsb andb orb].
  induction IH as [|c cs Hc _ IHcs]; [reflexivity|]. cbn. rewrite Hc. exact IHcs.
Qed.

Lemma relabel_in_nil (n : node) : relabel_in [] n = n.
Proof.
  induction n as [s | name a children IH] using node_induction; [reflexivity|].
  cbn [relabel_in named existsb]. f_equal.
  induction IH as [|c cs Hc _ IHcs]; [reflexivity|]. cbn. rewrite Hc, IHcs. reflexivity.
Qed.

(** A pass for [h] sees the lists it saw before the tags of other names
    were labelled. *)
Lemma listed_after_relabel (done : list string) (h : string) (n : node) :
  named done h = false ->
  listed_in [h] (relabel_in done n) = listed_in [h] n.
Proof.
  intros Hh. induction n as [s | name a children IH] using node_induction; [reflexivity|].
  cbn [relabel_in listed_in named existsb]. rewrite existsb_map.
  rewrite (existsb_ext_Forall _ _ _ IH). f_equal.
  destruct (String.eqb_spec name h) as [->|]; [|reflexivity].
  fold (named done h). rewrite Hh. reflexivity.
Qed.

Lemma relabel_after_relabel (done : list string) (h : string) (n : node) :
  named done h = false ->
  relabel_in [h] (relabel_in done n) = relabel_in (done ++ [h]) n.
Proof.
  intros Hh. induction n as [s | name a children IH] using node_induction; [reflexivity|].
  cbn [relabel_in]. rewrite map_map, (map_ext_Forall' _ _ _ IH), named_app.
  f_equal. cbn [named existsb]. rewrite orb_false_r.
  destruct (String.eqb_spec name h) as [->|].
  - fold (named done h). rewrite Hh. reflexivity.
  - rewrite orb_false_r. reflexivity.
Qed.

Lemma passes_after_raise (hs : list string) (e : exn) :
  fold_left pass hs (Raise e) = Raise e.
Proof. induction hs as [|h hs IH]; [reflexivity|exact IH]. Qed.

(** The passes for the names [hs], after those for [done]. *)
Lemma passes_cases (html : list node) (hs : list string) :
  forall done,
    distinct hs = true -> List.forallb (fun h => negb (named done h)) hs = true ->
    fold_left pass hs
              (if existsb (listed_in done) html then Raise type_error
               else Ok (map (relabel_in done) html))
    = if existsb (listed_in (done ++ hs)) html then Raise type_error
      else Ok (map (relabel_in (done ++ hs)) html).
Proof.
  induction hs as [|h hs IH]; intros done Hd Hn.
  - rewrite app_nil_r. reflexivity.
  - cbn [distinct List.forallb] in Hd, Hn.
    apply andb_true_iff in Hd. destruct Hd as [Hh Hd].
    apply andb_true_iff in Hn. destruct Hn as [Hdone Hn].
    apply negb_true_iff in Hh. apply negb_true_iff in Hdone.
    replace (done ++ h :: hs)%list with ((done ++ [h]) ++ hs)%list
      by (rewrite <- app_assoc; reflexivity).
    rewrite <- IH.
    + cbn [fold_left]. f_equal.
      rewrite (existsb_pointwise _ _ html (listed_in_app done [h])), existsb_orb.
      destruct (existsb (listed_in done) html); [reflexivity|].
      cbn [pass bind orb].
      rewrite (map_outcome_cases (mark h) (listed_in [h]) (relabel_in [h]) type_error).
      * rewrite existsb_map, map_map.
        rewrite (existsb_pointwise _ (listed_in [h]) html
                   (fun n => listed_after_relabel done h n Hdone)).
        rewrite (map_ext _ (relabel_in (done ++ [h]))
                   (fun n => relabel_after_relabel done h n Hdone)).
        reflexivity.
      * apply Forall_forall. intros n _. apply mark_cases.
    + exact Hd.
    + clear -Hn Hh. induction hs as [|k hs IHk]; [reflexivity|].
      cbn [List.forallb named existsb] in *.
      apply andb_true_iff in Hn. destruct Hn as [Hk Hn].
      apply orb_false_iff in Hh. destruct Hh as [Hkh Hh].
      rewrite (IHk Hh Hn), andb_true_r, named_app.
      apply negb_true_iff in Hk. rewrite Hk. cbn [named existsb orb].
      rewrite String.eqb_sym, Hkh. reflexivity.
Qed.

(** X4.  The loop over [h1] to [h9] fails with the [TypeError] of
    [list + str] exactly when some heading, at any depth, has a list for
    class; otherwise it returns the document with every heading
    labelled once and everything else as it was. *)
Theorem mark_headings_cases (html : list node) :
  mark_headings html =
  if existsb (listed_in heading_names) html then Raise type_error
  else Ok (map (relabel_in heading_names) html).
Proof.
  unfold mark_headings. fold pass.
  pose proof (passes_cases html heading_names [] eq_refl eq_refl) as H.
  cbn [app] in H. rewrite <- H. f_equal.
  rewrite (existsb_pointwise _ (fun _ => false) html listed_in_nil).
  rewrite (map_ext _ (fun n => n) relabel_in_nil), map_id.
  clear H.
  assert (E : forall l : list node, existsb (fun _ => false) l = false)
    by (induction l as [|n l IHl]; [reflexivity|exact IHl]).
  rewrite E. reflexivity.
Qed.

End HeadingFacts.

(** ** Lines and margins *)

Module LineFacts.
Import StrFacts DedentFacts Textwrap.

Lemma split_lines_not_nil (s : string) : split_lines s <> [].
Proof.
  induction s as [|c s IH]; [discriminate|]. cbn [split_lines].
  destruct (c =? nl_char)%char; [discriminate|].
  destruct (split_lines s); [contradiction|discriminate].
Qed.

(** Splitting at the line feeds distributes over a line feed. *)
Lemma split_lines_app (a b : string) :
  split_lines (a ++ nl ++ b) = (split_lines a ++ split_lines b)%list.
Proof.
  induction a as [|c a IH]; [reflexivity|].
  cbn [append split_lines]. cbn [append] in IH. rewrite IH.
  destruct (c =? nl_char)%char; [reflexivity|].
  pose proof (split_lines_not_nil a) as N.
  destruct (split_lines a) as [|l ls]; [contradiction|reflexivity].
Qed.

Lemma split_lines_join (l : string) (ls : list string) :
  split_lines (join nl (l :: ls)) = flat_map split_lines (l :: ls).
Proof.
  revert l. induction ls as [|x ls IH]; intros l.
  - cbn [join flat_map]. rewrite app_nil_r. reflexivity.
  - change (join nl (l :: x :: ls)) with (l ++ nl ++ join nl (x :: ls)).
    rewrite split_lines_app, IH. reflexivity.
Qed.

(** A start without line feed stays on the first line. *)
Lemma split_lines_prepend (a x : string) :
  mem nl_char a = false ->
  split_lines (a ++ x) =
  match split_lines x with
  | l :: ls => (a ++ l) :: ls
  | [] => []
  end.
Proof.
  pose proof (split_lines_not_nil x) as N.
  destruct (split_lines x) as [|l ls] eqn:E; [contradiction|]. clear N.
  induction a as [|c a IH]; intros H; [exact E|].
  cbn [mem] in H. apply orb_false_iff in H. destruct H as [Hc Ha].
  cbn [append split_lines]. rewrite Ascii.eqb_sym, Hc, (IH Ha). reflexivity.
Qed.

Lemma blank_out_alt (l : string) : blank_out l = if has_content l then l else "".
Proof.
  unfold blank_out, whitespace_only, has_content.
  destruct (forallb is_blank l); cbn [negb andb]; [|rewrite andb_false_r; reflexivity].
  rewrite andb_true_r. destruct l; reflexivity.
Qed.

Lemma has_content_blank_out (l : string) : has_content (blank_out l) = has_content l.
Proof. rewrite blank_out_alt. destruct (has_content l) eqn:E; [exact E|reflexivity]. Qed.

Lemma filter_blank_out (ls : list string) :
  filter has_content (map blank_out ls) = filter has_content ls.
Proof.
  induction ls as [|l ls IH]; [reflexivity|]. cbn [map filter].
  rewrite has_content_blank_out, IH. destruct (has_content l) eqn:E; [|reflexivity].
  rewrite blank_out_alt, E. reflexivity.
Qed.

Lemma prefixb_leading_blank (m l : string) :
  forallb is_blank m = true -> prefixb m l = true -> prefixb m (leading_blank l) = true.
Proof.
  revert l. induction m as [|a m IH]; intros l Hm H; [reflexivity|].
  destruct l as [|b l]; [discriminate|]. cbn [forallb prefixb leading_blank] in *.
  apply andb_true_iff in Hm. destruct Hm as [Ha Hm].
  apply andb_true_iff in H. destruct H as [E H].
  apply Ascii.eqb_eq in E. subst b. rewrite Ha. cbn [prefixb].
  rewrite Ascii.eqb_refl. apply (IH l Hm H).
Qed.

Lemma margin_stays (m : string) (indents : list string) :
  Forall (fun i => prefixb m i = true) indents ->
  fold_left margin_step indents (Some m) = Some m.
Proof.
  induction 1 as [|i rest Hi _ IH]; [reflexivity|].
  cbn [fold_left margin_step]. rewrite Hi. exact IH.
Qed.

(** When the first line has a visible character after the margin [m], and
    every other line with a visible character begins with [m], each line
    loses the margin and the lines without visible character are emptied. *)
Lemma dedent_lines_uniform (a : ascii) (m' l0 : string) (rest : list string) :
  forallb is_blank (String a m') = true ->
  has_content l0 = true -> leading_blank l0 = String a m' ->
  Forall (fun l => has_content l = true -> prefixb (String a m') l = true) rest ->
  dedent_lines (l0 :: rest) =
  map (fun l => if has_content l then drop (length (String a m')) l else "") (l0 :: rest).
Proof.
  intros Hm H0 L0 Hrest. set (m := String a m') in *.
  assert (P0 : prefixb m l0 = true).
  { rewrite <- L0. clear. induction l0 as [|c l IH]; [reflexivity|].
    cbn [leading_blank]. destruct (is_blank c); [|reflexivity].
    cbn [prefixb]. rewrite Ascii.eqb_refl. exact IH. }
  remember (map (fun l => if has_content l then drop (length m) l else "") (l0 :: rest))
    as R eqn:ER.
  unfold dedent_lines. fold blank_out. rewrite filter_blank_out.
  cbn [filter]. rewrite H0. cbn [map fold_left margin_step]. rewrite L0.
  rewrite margin_stays.
  - subst m R. cbn iota. fold (map blank_out rest). fold (blank_out l0).
    change (strip_margin (String a m') (blank_out l0)
              :: map (strip_margin (String a m')) (map blank_out rest))
      with (map (strip_margin (String a m')) (map blank_out (l0 :: rest))).
    rewrite map_map. apply map_ext_in. intros l Hl.
    rewrite blank_out_alt. destruct (has_content l) eqn:E; [|reflexivity].
    unfold strip_margin.
    assert (P : prefixb (String a m') l = true).
    { destruct Hl as [<-|Hl]; [exact P0|].
      rewrite Forall_forall in Hrest. exact (Hrest l Hl E). }
    rewrite P. reflexivity.
  - apply Forall_forall. intros i Hi. apply in_map_iff in Hi.
    destruct Hi as (l & <- & Hl). apply filter_In in Hl. destruct Hl as [Hl E].
    apply prefixb_leading_blank; [exact Hm|].
    rewrite Forall_forall in Hrest. exact (Hrest l Hl E).
Qed.

Lemma has_content_blank_start (b t : string) :
  forallb is_blank b = true -> has_content (b ++ t) = has_content t.
Proof. intros H. unfold has_content. rewrite forallb_append, H. reflexivity. Qed.

End LineFacts.

(** ** The markup of a banner *)

Module BannerFacts.
Import StrFacts ScanFacts DedentFacts LineFacts CountFacts Textwrap Alert Banner.

Lemma replace_nl_cons (new : string) (c : ascii) (s : string) :
  replace nl new (String c s) =
  if (c =? nl_char)%char then new ++ replace nl new s else String c (replace nl new s).
Proof.
  destruct (Ascii.eqb_spec c nl_char) as [->|N].
  - apply (replace_hit nl_char "" new s).
  - apply replace_keep. cbn [prefixb]. rewrite Ascii.eqb_sym.
    destruct (Ascii.eqb_spec c nl_char); [contradiction|reflexivity].
Qed.

(** Every line of the text after the first starts with the indent. *)
Lemma split_replaced (ind text : string) :
  mem nl_char ind = false ->
  split_lines (replace nl (nl ++ ind) text) =
  match split_lines text with
  | l :: ls => l :: map (append ind) ls
  | [] => []
  end.
Proof.
  intros Hi. induction text as [|c s IH]; [reflexivity|].
  rewrite replace_nl_cons.
  pose proof (split_lines_not_nil s) as N.
  destruct (Ascii.eqb_spec c nl_char) as [->|Hc].
  - change ((nl ++ ind) ++ replace nl (nl ++ ind) s)
      with (String nl_char (ind ++ replace nl (nl ++ ind) s)).
    cbn [split_lines]. rewrite Ascii.eqb_refl.
    rewrite (split_lines_prepend _ _ Hi), IH.
    destruct (split_lines s); [contradiction|reflexivity].
  - cbn [split_lines].
    destruct (Ascii.eqb_spec c nl_char) as [E|_]; [contradiction|].
    rewrite IH. destruct (split_lines s); [contradiction|reflexivity].
Qed.

Lemma split_indented_text (text : string) :
  split_lines (indent16 ++ replace nl (nl ++ indent16) text) =
  map (append indent16) (split_lines text).
Proof.
  rewrite (split_lines_prepend indent16 _ eq_refl), (split_replaced indent16 text eq_refl).
  pose proof (split_lines_not_nil text).
  destruct (split_lines text); [contradiction|reflexivity].
Qed.

(** A line with a literal start: the margin goes, the rest stays. *)
Lemma strip_line (m start rest : string) :
  has_content start = true -> prefixb m start = true ->
  (if has_content (start ++ rest) then drop (length m) (start ++ rest) else "")
  = drop (length m) start ++ rest.
Proof.
  intros C P. rewrite (has_content_append _ rest C). apply drop_append_r, P.
Qed.

Lemma strip_text_line (t : string) :
  (if has_content (indent16 ++ t) then drop 8 (indent16 ++ t) else "") = text_line t.
Proof.
  rewrite (has_content_blank_start indent16 t eq_refl). reflexivity.
Qed.

Lemma assigned_id_one_line (ID : option string) (st : state) :
  (forall i, ID = Some i -> mem nl_char i = false) ->
  mem nl_char (fst (assign_id ID st)) = false.
Proof.
  intros H. destruct ID as [i|]; cbn [assign_id fst]; [apply H; reflexivity|].
  apply not_in_number. reflexivity.
Qed.

(** X5.  An accepted call whose title and string ID hold no line feed
    returns the ten-line banner without the margin of the source: the
    identifier names both inputs, and every line of the text stands under
    the heading, eight blanks in, the lines without visible character
    being emptied. *)
Theorem alert_markup (title text level : string) (ID : option string) (st : state) :
  level = "info" \/ level = "warning" ->
  mem nl_char title = false ->
  (forall i, ID = Some i -> mem nl_char i = false) ->
  alert title text level ID st =
  (Ok (banner (fst (assign_id ID st)) level title text), snd (assign_id ID st)).
Proof.
  intros Hl Ht Hi. pose proof (assigned_id_one_line ID st Hi) as Hid.
  unfold alert.
  replace (negb ((level =? "info") || (level =? "warning"))) with false
    by (destruct Hl as [-> | ->]; reflexivity).
  destruct (assign_id ID st) as [aid st'] eqn:EA. cbn [fst snd] in *.
  f_equal. f_equal.
  unfold dedent, alert_fstring. rewrite split_lines_join. cbn [flat_map].
  change ("                " ++ replace nl (nl ++ indent16) text)
    with (indent16 ++ replace nl (nl ++ indent16) text).
  rewrite split_indented_text. unfold banner.
  set (T := split_lines text).
  rewrite !split_lines_last;
    try (destruct Hl as [-> | ->]; rewrite ?mem_append, ?Hid, ?Ht; reflexivity).
  cbn [app].
  rewrite (dedent_lines_uniform " " "       ").
  - unfold banner_top, banner_bottom. f_equal.
    cbn [map app length]. rewrite map_app, map_map. cbn [map].
    rewrite !(strip_line "        ") by reflexivity.
    rewrite (map_ext _ text_line strip_text_line).
    reflexivity.
  - reflexivity.
  - apply has_content_append. reflexivity.
  - rewrite leading_blank_append by reflexivity. reflexivity.
  - repeat (apply Forall_cons;
            [intros _; first [reflexivity | apply prefixb_append_r; reflexivity]|]).
    apply Forall_app. split.
    + apply Forall_forall. intros l Hin. apply in_map_iff in Hin.
      destruct Hin as (t & <- & _). intros _. apply prefixb_append_r. reflexivity.
    + repeat (apply Forall_cons;
              [intros _; first [reflexivity | apply prefixb_append_r; reflexivity]|]).
      apply Forall_nil.
Qed.

Lemma alert_markup_witness :
  alert "Update" (join nl ["Read this"; "  "; "and that"]) "info" (Some "news") init =
  (Ok (banner "news" "info" "Update" (join nl ["Read this"; "  "; "and that"])),
   mkState 0 ["news"]).
Proof.
  apply (alert_markup "Update" (join nl ["Read this"; "  "; "and that"]) "info"
                      (Some "news") init).
  - left. reflexivity.
  - reflexivity.
  - intros i [= <-]. reflexivity.
Defined.

End BannerFacts.

(** ** The script that disables the old banners *)

Module ScriptFacts.
Import StrFacts ScanFacts DedentFacts LineFacts CountFacts Textwrap Alert Banner BannerFacts.

Lemma split_entries (ind e : string) (es : list string) :
  mem nl_char ind = false ->
  Forall (fun x => mem nl_char x = false) (e :: es) ->
  split_lines (ind ++ join ("," ++ nl ++ ind) (e :: es)) = map (append ind) (commas (e :: es)).
Proof.
  intros Hi. revert e. induction es as [|e2 es IH]; intros e H.
  - cbn [join commas map]. apply split_lines_last.
    inversion H. rewrite mem_append, Hi. assumption.
  - inversion H as [|? ? He Hes]. subst.
    change (join ("," ++ nl ++ ind) (e :: e2 :: es))
      with (e ++ ("," ++ nl ++ ind) ++ join ("," ++ nl ++ ind) (e2 :: es)).
    replace (ind ++ e ++ ("," ++ nl ++ ind) ++ join ("," ++ nl ++ ind) (e2 :: es))
      with ((ind ++ e ++ ",") ++ nl ++ (ind ++ join ("," ++ nl ++ ind) (e2 :: es)))
      by (rewrite !append_assoc; reflexivity).
    rewrite split_lines_app, (IH e2 Hes), split_lines_last.
    + reflexivity.
    + rewrite !mem_append, Hi, He. reflexivity.
Qed.

Lemma commas_content (es : list string) :
  Forall (fun e => has_content e = true) es ->
  Forall (fun t => has_content t = true) (commas es).
Proof.
  induction 1 as [|e es He Hes IH]; [constructor|].
  destruct es as [|e2 es]; [repeat constructor; exact He|].
  cbn [commas]. constructor; [apply has_content_append, He|exact IH].
Qed.

Lemma entry_one_line (i : string) : mem nl_char i = false -> mem nl_char (entry i) = false.
Proof. intros H. unfold entry. rewrite !mem_append, H. reflexivity. Qed.

Lemma known_ids_one_line (st : state) :
  Forall (fun i => mem nl_char i = false) (strid st) ->
  Forall (fun e => mem nl_char e = false) (disable_entries st).
Proof.
  intros H. unfold disable_entries, known_ids. rewrite map_app.
  apply Forall_app. split.
  - apply Forall_forall. intros e He. apply in_map_iff in He.
    destruct He as (i & <- & Hin). apply in_map_iff in Hin.
    destruct Hin as (n & <- & _). apply entry_one_line, not_in_number. reflexivity.
  - apply Forall_forall. intros e He. apply in_map_iff in He.
    destruct He as (i & <- & Hin). apply entry_one_line.
    rewrite Forall_forall in H. exact (H i Hin).
Qed.

Lemma entries_content (st : state) :
  Forall (fun e => has_content e = true) (disable_entries st).
Proof.
  apply Forall_forall. intros e He. apply in_map_iff in He.
  destruct He as (i & <- & _). reflexivity.
Qed.

Lemma strip_entry_line (t : string) :
  has_content t = true ->
  (if has_content (indent12 ++ t) then drop 8 (indent12 ++ t) else "") = "    " ++ t.
Proof.
  intros H. rewrite (has_content_blank_start indent12 t eq_refl), H. reflexivity.
Qed.

(** X6.  For a marker and string IDs without line feed,
    [disable_old_alerts] returns the script without the margin of the
    source: the marker, then one entry per known identifier, four blanks
    in, separated by commas; with no identifier the line of the entries is
    empty. *)
Theorem disable_script (marker : string) (st : state) :
  mem nl_char marker = false ->
  Forall (fun i => mem nl_char i = false) (strid st) ->
  disable_old_alerts marker st = script marker (disable_entries st).
Proof.
  intros Hm Hs. pose proof (known_ids_one_line st Hs) as H1.
  pose proof (entries_content st) as HC.
  unfold disable_old_alerts, script. generalize dependent (disable_entries st).
  intros es H1 HC. unfold dedent, disable_fstring.
  rewrite split_lines_join. cbn [flat_map].
  change ("            " ++ join ("," ++ nl ++ indent12) es)
    with (indent12 ++ join ("," ++ nl ++ indent12) es).
  assert (E : split_lines (indent12 ++ join ("," ++ nl ++ indent12) es)
              = match es with [] => [indent12] | _ => map (append indent12) (commas es) end).
  { destruct es as [|e es]; [reflexivity|]. apply split_entries; [reflexivity|exact H1]. }
  rewrite E. clear E.
  rewrite !split_lines_last by (rewrite ?mem_append, ?Hm; reflexivity).
  cbn [app].
  rewrite (dedent_lines_uniform " " "       ").
  - f_equal. unfold script_top, script_entries.
    cbn [map app length]. rewrite map_app. cbn [map].
    rewrite (strip_line "        ") by reflexivity.
    f_equal. f_equal. f_equal.
    destruct es as [|e es]; [reflexivity|].
    rewrite map_map. apply map_ext_in. intros t Ht.
    apply strip_entry_line.
    pose proof (commas_content _ HC) as HT. rewrite Forall_forall in HT. exact (HT t Ht).
  - reflexivity.
  - reflexivity.
  - reflexivity.
  - apply Forall_cons; [intros _; apply prefixb_append_r; reflexivity|].
    apply Forall_app. split.
    + destruct es as [|e es]; [repeat constructor|].
      apply Forall_forall. intros l Hin. apply in_map_iff in Hin.
      destruct Hin as (t & <- & _). intros _. apply prefixb_append_r. reflexivity.
    + repeat constructor.
Qed.

Lemma disable_script_witness :
  disable_old_alerts "sheet_v2" (mkState 2 ["news"]) =
  join nl [ "setAttrs({";
            lit "    'sheet_v2': 1,";
            lit "    'alert-0': 1,";
            lit "    'alert-1': 1,";
            lit "    'alert-news': 1";
            "}); " ].
Proof.
  rewrite (disable_script "sheet_v2" (mkState 2 ["news"])).
  - reflexivity.
  - reflexivity.
  - repeat constructor.
Defined.

End ScriptFacts.

(** ** Runs of calls *)

Module RunFacts.
Import Alert Banner AlertFacts.

Lemma alert_guard (title text level : string) (ID : option string) (st : state) :
  alert title text level ID st =
  if (level =? "info") || (level =? "warning")
  then (Ok (Textwrap.dedent
              (alert_fstring (fst (assign_id ID st)) level title
                             (replace nl (nl ++ indent16) text))),
        snd (assign_id ID st))
  else (Raise level_error, st).
Proof.
  unfold alert. destruct ((level =? "info") || (level =? "warning")); [|reflexivity].
  cbn [negb]. destruct (assign_id ID st). reflexivity.
Qed.

(** X7.  A run of calls goes through exactly when every level passes the
    guard.  Its banners then carry, in call order, the identifiers handed
    out from the counter: the calls without ID get consecutive numbers,
    whatever string IDs come in between; the counter goes up by the
    number of calls without ID and the string IDs are recorded in order. *)
Theorem run_accounting (calls : list call) :
  forall st0,
    (List.forallb accepted calls = true ->
     exists banners st,
       run calls st0 = (Ok banners, st) /\
       map fst banners = assigned (numid st0) calls /\
       numid st + List.length (explicit_ids calls) = numid st0 + List.length calls /\
       strid st = (strid st0 ++ explicit_ids calls)%list) /\
    (List.forallb accepted calls = false ->
     exists st, run calls st0 = (Raise level_error, st)).
Proof.
  induction calls as [|c cs IH]; intros st0.
  - split; [|discriminate]. intros _. exists [], st0. cbn.
    rewrite app_nil_r, Nat.add_0_r. auto.
  - cbn [List.forallb run]. rewrite alert_guard. fold (accepted c).
    destruct (accepted c); cbn [andb].
    + destruct (IH (snd (assign_id (c_ID c) st0))) as [IHok IHbad]. split.
      * intros H. destruct (IHok H) as (bs & st & R & Hids & Hn & Hs).
        rewrite R. eexists _, st. split; [reflexivity|].
        unfold explicit_ids in *. cbn [map fst assigned flat_map List.length].
        destruct (c_ID c) as [i|]; cbn [assign_id fst snd numid strid app List.length] in *.
        -- rewrite Hids, Hs, <- app_assoc. split; [reflexivity|]. split; [lia|reflexivity].
        -- rewrite Hids, Hs, Nat.add_1_r. split; [reflexivity|]. split; [lia|reflexivity].
      * intros H. destruct (IHbad H) as (st & R). rewrite R. eauto.
    + split; [discriminate|]. intros _. eauto.
Qed.

Lemma run_accounting_witness :
  exists banners st,
    run sample_calls init = (Ok banners, st) /\
    map fst banners = ["0"; "rolls"; "1"] /\
    numid st + 1 = 0 + 3 /\
    strid st = ["rolls"].
Proof.
  destruct (run_accounting sample_calls init) as [H _].
  apply H. reflexivity.
Defined.

End RunFacts.

(** ** Colour values *)

Module PaletteFacts.
Import Colors Palette ColorFacts.

(** The only exception of [int16]. *)
Lemma int16_raises (s : string) (e : exn) : int16 s = Raise e -> e = invalid_literal.
Proof.
  unfold int16.
  destruct (match skip_spaces s with
            | String "+" s' => (false, s')
            | String "-" s' => (true, s')
            | _ => (false, skip_spaces s)
            end) as [negative s2].
  match goal with |- context [hex_digits 0 false false ?x] => generalize x end.
  intros s3.
  assert (D : match hex_digits 0 false false s3 with
              | Some (v, rest) =>
                if PyStr.forallb is_space rest
                then Ok (if negative then (- v)%Z else v)
                else Raise invalid_literal
              | None => Raise invalid_literal
              end = Raise e -> e = invalid_literal).
  { destruct (hex_digits 0 false false s3) as [[v rest]|];
      [destruct (PyStr.forallb is_space rest)|]; congruence. }
  destruct s3 as [|c t]; [exact D|].
  destruct c as [[] [] [] [] [] [] [] []]; first [exact D | congruence].
Qed.

Lemma channel_raises (hex : string) (i : nat) (e : exn) :
  channel hex i = Raise e -> e = invalid_literal.
Proof.
  unfold channel. destruct (int16 _) eqn:E; [discriminate|].
  cbn [bind]. intros [= <-]. exact (int16_raises _ _ E).
Qed.

Lemma channels_raises (h : string) (e : exn) :
  channels h = Raise e -> e = invalid_literal.
Proof.
  unfold channels.
  destruct (channel _ 0) eqn:E0; cbn [bind];
    [|intros [= <-]; exact (channel_raises _ _ _ E0)].
  destruct (channel _ 1) eqn:E1; cbn [bind];
    [|intros [= <-]; exact (channel_raises _ _ _ E1)].
  destruct (channel _ 2) eqn:E2; cbn [bind];
    [discriminate|intros [= <-]; exact (channel_raises _ _ _ E2)].
Qed.

Lemma drop_all (n : nat) (s : string) : length s <= n -> drop n s = "".
Proof.
  revert s. induction n as [|n IH]; intros [|c s] H; cbn in *; try reflexivity; try lia.
  apply IH. lia.
Qed.

(** X8.  A hex value with four characters or fewer after its leading
    ["#"], such as the short form [#FFF], cannot be read: the third
    channel is missing and the generation fails with the [ValueError] of
    [int]. *)
Theorem short_hex_rejected (h : string) :
  length (lstrip "#" h) <= 4 ->
  channels h = Raise invalid_literal /\
  forall name, rule_lines (mkColor name h) = Raise invalid_literal.
Proof.
  intros H.
  assert (C : channels h = Raise invalid_literal).
  { destruct (channels h) as [[[r g] b]|e] eqn:E.
    - exfalso. unfold channels in E.
      destruct (channel _ 0); cbn [bind] in E; [|discriminate].
      destruct (channel _ 1); cbn [bind] in E; [|discriminate].
      unfold channel in E. cbn [Nat.mul Nat.add] in E.
      rewrite (drop_all 4 _ H) in E. discriminate E.
    - f_equal. exact (channels_raises h e E). }
  split; [exact C|]. intros name. unfold rule_lines. cbn [hex]. rewrite C. reflexivity.
Qed.

Lemma short_hex_rejected_witness :
  channels "#FFF" = Raise invalid_literal /\
  forall name, rule_lines (mkColor name "#FFF") = Raise invalid_literal.
Proof. apply (short_hex_rejected "#FFF"). vm_compute. lia. Defined.

Lemma well_formed_shape (h : string) :
  well_formed_hex h = true ->
  exists a b c d e f,
    h = String "#" (String a (String b (String c (String d (String e (String f ""))))))
    /\ List.forallb is_hex_digit [a; b; c; d; e; f] = true.
Proof.
  unfold well_formed_hex.
  destruct h as [|h0 [|a [|b [|c [|d [|e [|f [|]]]]]]]]; try discriminate;
    try (destruct (Ascii.eqb_spec h0 "#") as [->|]; [discriminate|];
         destruct h0 as [[] [] [] [] [] [] [] []]; discriminate).
  destruct (Ascii.eqb_spec h0 "#") as [->|N];
    [|destruct h0 as [[] [] [] [] [] [] [] []]; try discriminate; congruence].
  intros H. exists a, b, c, d, e, f. auto.
Qed.

(** X9.  Only the first six characters after the leading ["#"] are read:
    whatever follows a well-formed [#RRGGBB], an alpha channel for
    instance, changes neither the channels nor the luma; and the ["#"]
    may be left out or repeated. *)
Theorem only_six_digits_read (h extra : string) :
  well_formed_hex h = true ->
  channels (h ++ extra) = channels h /\
  channels (String "#" h) = channels h /\
  channels (lstrip "#" h) = channels h.
Proof.
  intros H. destruct (well_formed_shape h H) as (a & b & c & d & e & f & -> & D).
  cbn [List.forallb] in D. apply andb_true_iff in D. destruct D as [Ha _].
  pose proof (hex_digit_not_hash a Ha) as Na.
  split; [|split]; unfold channels; cbn [append lstrip];
    change (mem "#" "#") with true; cbv iota; rewrite Na; cbn [lstrip];
    rewrite ?Na; reflexivity.
Qed.

Lemma only_six_digits_read_witness :
  channels ("#FFFFFF" ++ "80") = channels "#FFFFFF" /\
  channels (String "#" "#FFFFFF") = channels "#FFFFFF" /\
  channels (lstrip "#" "#FFFFFF") = channels "#FFFFFF".
Proof. apply (only_six_digits_read "#FFFFFF" "80"). reflexivity. Defined.


Lemma color_rules_cases (c : color_def) :
  (readable c -> exists blocks, color_rules c = Ok blocks) /\
  (forall e, channels (hex c) = Raise e -> color_rules c = Raise invalid_literal).
Proof.
  unfold readable, color_rules, rule_lines. split.
  - intros [[[r g] b] E]. rewrite E. cbn [bind].
    destruct (0.5 <? luma r g b)%float; cbn [bind]; eauto.
  - intros e E. rewrite E, (channels_raises _ _ E). reflexivity.
Qed.

Lemma map_outcome_raise {A B : Type} (f : A -> outcome B) (e : exn) (l : list A) (x : A) :
  (forall y e', f y = Raise e' -> e' = e) ->
  In x l -> f x = Raise e -> map_outcome f l = Raise e.
Proof.
  intros U. induction l as [|y l IH]; [intros []|].
  intros [<-|Hin] Hx; cbn [map_outcome].
  - rewrite Hx. reflexivity.
  - destruct (f y) as [b|e'] eqn:Fy; cbn [bind].
    + rewrite (IH Hin Hx). reflexivity.
    + rewrite (U _ _ Fy). reflexivity.
Qed.

Lemma color_rules_raises (c : color_def) (e : exn) :
  color_rules c = Raise e -> e = invalid_literal.
Proof.
  unfold color_rules, rule_lines.
  destruct (channels (hex c)) as [[[r g] b]|e'] eqn:E; cbn [bind].
  - destruct (0.5 <? luma r g b)%float; cbn [bind]; discriminate.
  - intros [= <-]. exact (channels_raises _ _ E).
Qed.

(** X10.  The colour rules are generated for the whole table or not at
    all: they are when every row can be read, and a single row that cannot
    makes the generation fail with the [ValueError] of [int], whatever the
    other rows are. *)
Theorem css_all_or_nothing (rows : list color_def) :
  (Forall readable rows -> exists css, custom_rt_color_css rows = Ok css) /\
  (forall c e, In c rows -> channels (hex c) = Raise e ->
               custom_rt_color_css rows = Raise invalid_literal).
Proof.
  split.
  - intros H. unfold custom_rt_color_css, css_rules.
    destruct (map_outcome_total color_rules rows) as [rs Hrs].
    + eapply Forall_impl; [|exact H]. intros c. apply color_rules_cases.
    + rewrite Hrs. cbn [bind]. eauto.
  - intros c e Hin E. unfold custom_rt_color_css, css_rules.
    rewrite (map_outcome_raise color_rules invalid_literal rows c color_rules_raises Hin).
    + reflexivity.
    + exact (proj2 (color_rules_cases c) e E).
Qed.

Lemma css_all_or_nothing_witness :
  (exists css, custom_rt_color_css [white; black] = Ok css) /\
  custom_rt_color_css [white; mkColor "red" "#F00"; black] = Raise invalid_literal.
Proof.
  split.
  - apply (proj1 (css_all_or_nothing [white; black])).
    repeat constructor; eexists; vm_compute; reflexivity.
  - apply (proj2 (css_all_or_nothing [white; mkColor "red" "#F00"; black])
                 (mkColor "red" "#F00") invalid_literal).
    + right. left. reflexivity.
    + vm_compute. reflexivity.
Defined.

Lemma grays_checked :
  List.forallb (fun a => List.forallb (gray_checks a) all_chars) all_chars = true.
Proof. vm_compute. reflexivity. Qed.

(** X11.  For the grays the threshold lies between [#7F7F7F] and
    [#808080]: a gray takes black text on its header and buttons exactly
    when its level is 128 or more, and white text on its rolls exactly when
    its level is 127 or less. *)
Theorem gray_threshold (a b : ascii) (x y : Z) (name : string) :
  hex_value a = Some x -> hex_value b = Some y ->
  exists l,
    luma_of (mkColor name (gray a b)) = Ok l /\
    (0.5 <? l)%float = (128 <=? 16 * x + y)%Z /\
    (l <? 0.5)%float = (16 * x + y <=? 127)%Z.
Proof.
  intros Ha Hb. pose proof grays_checked as H.
  rewrite forallb_forall in H. specialize (H a (all_chars_complete a)).
  rewrite forallb_forall in H. specialize (H b (all_chars_complete b)).
  unfold gray_checks in H. rewrite Ha, Hb in H.
  change (luma_of (mkColor name (gray a b))) with (luma_of (mkColor "gray" (gray a b))).
  destruct (luma_of (mkColor "gray" (gray a b))) as [l|e]; [|discriminate].
  apply andb_true_iff in H. destruct H as [H1 H2].
  apply Bool.eqb_prop in H1. apply Bool.eqb_prop in H2. eauto.
Qed.

Lemma gray_threshold_witness :
  exists l,
    luma_of (mkColor "mid" "#808080") = Ok l /\
    (0.5 <? l)%float = (128 <=? 16 * 8 + 0)%Z /\
    (l <? 0.5)%float = (16 * 8 + 0 <=? 127)%Z.
Proof. apply (gray_threshold "8" "0" 8 0 "mid"); reflexivity. Defined.

Lemma hex_digit_lower (c : ascii) :
  is_hex_digit c = true ->
  hex_value (to_lower c) = hex_value c /\ is_hex_digit (to_lower c) = true.
Proof.
  destruct c as [[] [] [] [] [] [] [] []]; try discriminate; intros _; split; reflexivity.
Qed.

(** X12.  The case of the hex digits does not matter to the luma: a
    well-formed value and its lower-case spelling give the same channels,
    hence the same text colours. *)
Theorem hex_case_insensitive (h : string) :
  well_formed_hex h = true ->
  well_formed_hex (lower h) = true /\ channels (lower h) = channels h.
Proof.
  intros H. destruct (well_formed_shape h H) as (a & b & c & d & e & f & -> & D).
  cbn [List.forallb] in D. rewrite !andb_true_iff in D.
  destruct D as (Ha & Hb & Hc & Hd & He & Hf & _).
  destruct (hex_digit_lower a Ha) as [Va La], (hex_digit_lower b Hb) as [Vb Lb],
    (hex_digit_lower c Hc) as [Vc Lc], (hex_digit_lower d Hd) as [Vd Ld],
    (hex_digit_lower e He) as [Ve Le], (hex_digit_lower f Hf) as [Vf Lf].
  split.
  - cbn [lower to_lower]. change (to_lower "#") with "#"%char.
    cbn [well_formed_hex List.forallb]. rewrite La, Lb, Lc, Ld, Le, Lf. reflexivity.
  - unfold channels. cbn [lower lstrip]. change (to_lower "#") with "#"%char.
    change (mem "#" "#") with true. cbv iota.
    rewrite (hex_digit_not_hash a Ha), (hex_digit_not_hash _ La).
    unfold channel. cbn [Nat.mul Nat.add drop take].
    unfold is_hex_digit in *.
    destruct (hex_value a) as [xa|] eqn:Ea; [|discriminate].
    destruct (hex_value b) as [xb|] eqn:Eb; [|discriminate].
    destruct (hex_value c) as [xc|] eqn:Ec; [|discriminate].
    destruct (hex_value d) as [xd|] eqn:Ed; [|discriminate].
    destruct (hex_value e) as [xe|] eqn:Ee; [|discriminate].
    destruct (hex_value f) as [xf|] eqn:Ef; [|discriminate].
    rewrite (int16_two_digits _ _ xa xb Va Vb), (int16_two_digits _ _ xc xd Vc Vd),
      (int16_two_digits _ _ xe xf Ve Vf).
    rewrite (int16_two_digits a b xa xb Ea Eb), (int16_two_digits c d xc xd Ec Ed),
      (int16_two_digits e f xe xf Ee Ef).
    reflexivity.
Qed.

Lemma hex_case_insensitive_witness :
  well_formed_hex (lower "#2F8FD3") = true /\ channels (lower "#2F8FD3") = channels "#2F8FD3".
Proof. apply (hex_case_insensitive "#2F8FD3"). reflexivity. Defined.

End PaletteFacts.

(** ** The experience fields *)

Module XpFacts.
Import PyStr Xp StrFacts ScanFacts.

Lemma same_length_heads (a c b d : string) :
  length a = length c -> a ++ b = c ++ d -> a = c.
Proof.
  revert c. induction a as [|x a IH]; intros [|y c] L H; simpl in L; try discriminate.
  - reflexivity.
  - simpl in H. injection H as -> H. f_equal. apply IH; [lia|assumption].
Qed.

Lemma xp_length (name suffix adv_suffix tot_suffix : string) :
  length (xp name suffix adv_suffix tot_suffix) =
  length (xp "" "" "" "") + 3 * length name
  + length suffix + length adv_suffix + length tot_suffix.
Proof.
  unfold xp. rewrite !length_append. change (length "") with 0. lia.
Qed.

Lemma xp_tags (name suffix adv_suffix tot_suffix : string) :
  mem "<" name = false -> mem "<" suffix = false ->
  mem "<" adv_suffix = false -> mem "<" tot_suffix = false ->
  count "<input" (xp name suffix adv_suffix tot_suffix) = 3.
Proof.
  intros Hn Hs Ha Ht. unfold xp.
  assert (F : forall x r, mem "<" x = false ->
            forall a, ends_outside "<input" a = true ->
            count "<input" (a ++ name ++ x ++ r) = count "<input" a + count "<input" r).
  { intros x r Hx a Ea. rewrite <- (append_assoc name x r).
    apply (count_past_hole "<" "input"); [exact Ea|].
    rewrite mem_append, Hn, Hx. reflexivity. }
  change ("[" ++ ?t) with (String "[" t).
  rewrite (count_keep "<" "input") by reflexivity.
  rewrite !append_assoc.
  rewrite (F suffix _ Hs) by reflexivity.
  rewrite (count_foreign "<" "input" (lit "' value='0'/>")) by reflexivity.
  change ("/" ++ ?t) with (String "/" t).
  rewrite (count_keep "<" "input") by reflexivity.
  rewrite (F adv_suffix _ Ha) by reflexivity.
  rewrite (count_foreign "<" "input" (lit "' value='0' readonly/>")) by reflexivity.
  change ("/" ++ ?t) with (String "/" t).
  rewrite (count_keep "<" "input") by reflexivity.
  rewrite (F tot_suffix _ Ht) by reflexivity.
  vm_compute. reflexivity.
Qed.

(** X13.  [xp] writes three input fields, whatever the name and the
    suffixes are as long as they open no tag of their own, and the markup
    tells the names apart: two names with the same markup are the same
    name. *)
Theorem xp_fields (name suffix adv_suffix tot_suffix : string) :
  (mem "<" (name ++ suffix ++ adv_suffix ++ tot_suffix) = false ->
   count "<input" (xp name suffix adv_suffix tot_suffix) = 3) /\
  (forall name',
     xp name' suffix adv_suffix tot_suffix = xp name suffix adv_suffix tot_suffix ->
     name' = name).
Proof.
  split.
  - rewrite !mem_append, !orb_false_iff. intros (Hn & Hs & Ha & Ht).
    apply xp_tags; assumption.
  - intros name' H.
    assert (L : length name' = length name).
    { apply (f_equal length) in H. rewrite (xp_length name'), (xp_length name) in H. lia. }
    unfold xp in H. apply append_inv_head in H.
    rewrite !append_assoc in H. apply append_inv_head in H.
    exact (same_length_heads _ _ _ _ L H).
Qed.

Lemma xp_fields_witness :
  count "<input" (xp_default "%(Tech)s") = 3 /\
  (xp_default "Creo" = xp_default "%(Form)s" -> "Creo" = "%(Form)s").
Proof.
  split.
  - apply (proj1 (xp_fields "%(Tech)s" "_exp" "_advancementExp" "_totalExp")).
    vm_compute. reflexivity.
  - apply (proj2 (xp_fields "%(Form)s" "_exp" "_advancementExp" "_totalExp") "Creo").
Defined.

End XpFacts.

(** ** The first line of a dedented text *)

Module MarginFacts.
Import PyStr Textwrap StrFacts DedentFacts LineFacts.








End MarginFacts.

(** ** The number in the markup of a banner *)

Module CounterFacts.
Import PyStr Textwrap Alert Operations StrFacts DedentFacts LineFacts.
Import FatigueFacts MarginFacts AlertFacts.




End CounterFacts.

(** ** Which operations touch the state *)

Module GenerationFacts.
Import PyStr Helpers Alert Colors Operations StrFacts AlertFacts ColorFacts.
Import PaletteFacts CounterFacts.








End GenerationFacts.
